(** * Bulk product upload and categorization: a shallow embedding

    The two scripts [bulkUpload.py] and [productCategorization.py] are
    thin layers over pandas (CSV parsing), Python's numeric coercions and
    a MongoDB database with two collections, [products] and [categories].

    The embedding keeps the shape of the Python code:
    - Python values are a small dynamically typed universe [value];
      a [dict] (and a stored document) is a [gmap string value];
    - Python exceptions are an error monad [result]; the functions that
      touch the database thread it explicitly ([St]);
    - floating-point numbers are IEEE binary64 values ([spec_float]);
    - a [str] is a [string] whose characters are the code points below 256.

    What lies outside the repository (the CSV parser, the parsers behind
    [float(str)] and [int(str)], the regular-expression engine of the
    store beyond literal patterns) is an interface, [Externals]. *)

From Stdlib Require Import ZArith Ascii Floats.SpecFloat.
From stdpp Require Import base option list strings gmap.

Local Open Scope string_scope.
Local Open Scope list_scope.
Local Open Scope Z_scope.

(** ** Python values and exceptions *)

(** IEEE binary64, the representation of a Python [float]. *)
Definition prec : Z := 53.
Definition emax : Z := 1024.

#[local] Set Warnings "-register-all".
Inductive value : Type :=
  | VBool (b : bool)
  | VInt (z : Z)
  | VFloat (f : spec_float)
  | VStr (s : string)
  | VList (l : list value)
  | VObjectId (o : N).

(** A Python [dict] with [str] keys; also a BSON document. *)
Abbreviation doc := (gmap string value).

Inductive exn : Type :=
  | ValueError
  | TypeError
  | AttributeError
  | KeyError
  | OverflowError
  | ParserError          (* pandas.errors.ParserError / EmptyDataError *)
  | InvalidId            (* bson.errors.InvalidId *)
  | WriteError           (* pymongo.errors.WriteError: document failed validation *)
  | DuplicateKeyError    (* pymongo.errors.DuplicateKeyError *)
  | BulkWriteError       (* pymongo.errors.BulkWriteError *)
  | OperationFailure.    (* pymongo.errors.OperationFailure *)

Inductive result (A : Type) : Type :=
  | Return (a : A)
  | Raise (e : exn).
Arguments Return {A} a.
Arguments Raise {A} e.

(** Sequencing: the first exception ends the computation. *)
#[global] Instance result_ret : MRet result := fun A a => Return a.
#[global] Instance result_bind : MBind result := fun A B k m =>
  match m with
  | Return a => k a
  | Raise e => Raise e
  end.

(** [for x in xs: body x], stopping at the first exception. *)
Fixpoint rmapM {A B} (f : A -> result B) (xs : list A) : result (list B) :=
  match xs with
  | [] => Return []
  | x :: xs' =>
      y ← f x; ys ← rmapM f xs'; Return (y :: ys)
  end.

(** ** Numeric coercions: [float(x)] and [int(x)] *)

Definition nan : spec_float := S754_nan.

(** [float(n)] for an [int]: round to nearest even, [OverflowError] beyond
    the binary64 range. *)
Definition float_of_int (z : Z) : result spec_float :=
  match binary_normalize prec emax z 0 false with
  | S754_infinity _ => Raise OverflowError
  | f => Return f
  end.

(** [int(x)] for a [float]: truncation towards zero. *)
Definition int_of_float (f : spec_float) : result Z :=
  match f with
  | S754_zero _ => Return 0
  | S754_nan => Raise ValueError
  | S754_infinity _ => Raise OverflowError
  | S754_finite s m e =>
      let a := match e with
               | Z0 => Zpos m
               | Zpos p => Zpos m * 2 ^ Zpos p
               | Zneg p => Zpos m / 2 ^ Zpos p
               end in
      Return (if s then - a else a)
  end.

(** ** What the repository takes from its libraries *)

Record UploadedFile : Type := {
  name : string;          (* [uploaded_file.name] *)
  content : string        (* the bytes of the upload *)
}.

(** A parsed table: the header and one list of cells per data row. *)
Record DataFrame : Type := {
  columns : list string;
  rows : list (list value)
}.

(** Every row of a table has one cell per column. *)
Definition rectangular (df : DataFrame) : Prop :=
  Forall (fun row => length row = length (columns df)) (rows df).

Class Externals : Type := {
  (** [pd.read_csv(file)]: the parsed table, or the parser's exception. *)
  read_csv : UploadedFile -> result DataFrame;
  read_csv_rectangular :
    forall file df, read_csv file = Return df -> rectangular df;
  (** [float(s)] for a [str]: [None] stands for [ValueError]. *)
  float_of_str : string -> option spec_float;
  (** [int(s)] for a [str]: [None] stands for [ValueError]. *)
  int_of_str : string -> option Z;
  (** The store's regular-expression engine under option [i], for the
      patterns that [regex_compile] below does not decide itself: the
      test "the pattern matches somewhere in the subject", or [None] when
      the pattern is rejected. *)
  pcre_caseless : string -> option (string -> bool)
}.

Section Coercions.
Context `{Externals}.

(** [float(x)] *)
Definition py_float (x : value) : result value :=
  match x with
  | VBool b => Return (VFloat (binary_normalize prec emax (if b then 1 else 0) 0 false))
  | VInt z => f ← float_of_int z; Return (VFloat f)
  | VFloat f => Return (VFloat f)
  | VStr s => match float_of_str s with
              | Some f => Return (VFloat f)
              | None => Raise ValueError
              end
  | VList _ | VObjectId _ => Raise TypeError
  end.

(** [int(x)] *)
Definition py_int (x : value) : result value :=
  match x with
  | VBool b => Return (VInt (if b then 1 else 0))
  | VInt z => Return (VInt z)
  | VFloat f => z ← int_of_float f; Return (VInt z)
  | VStr s => match int_of_str s with
              | Some z => Return (VInt z)
              | None => Raise ValueError
              end
  | VList _ | VObjectId _ => Raise TypeError
  end.
End Coercions.

(** ** [str.split(',')] and [str.strip()] *)

(** [str.isspace] on the code points below 256. *)
Definition is_space (c : ascii) : bool :=
  let n := N_of_ascii c in
  ((9 <=? n) && (n <=? 13) || (28 <=? n) && (n <=? 32)
   || (n =? 133) || (n =? 160))%N.

Fixpoint lstrip (s : string) : string :=
  match s with
  | String c s' => if is_space c then lstrip s' else s
  | EmptyString => EmptyString
  end.

(** Drops the trailing whitespace: a character stays when something
    non-blank follows it or it is itself non-blank. *)
Fixpoint rstrip (s : string) : string :=
  match s with
  | EmptyString => EmptyString
  | String c s' =>
      match rstrip s' with
      | EmptyString => if is_space c then EmptyString else String c EmptyString
      | r => String c r
      end
  end.

Definition strip (s : string) : string := rstrip (lstrip s).

(** [s.split(sep)] for a one-character separator: the pieces between the
    separators, empty pieces included; never the empty list. *)
Fixpoint split (sep : ascii) (s : string) : list string :=
  match s with
  | EmptyString => [EmptyString]
  | String c s' =>
      if Ascii.eqb c sep then EmptyString :: split sep s'
      else match split sep s' with
           | piece :: pieces => String c piece :: pieces
           | [] => [String c EmptyString]
           end
  end.

Definition comma : ascii := ","%char.

(** ** Dictionaries and tables *)

(** [d[k]]: [KeyError] when the key is absent. *)
Definition getitem (d : doc) (k : string) : result value :=
  match d !! k with
  | Some v => Return v
  | None => Raise KeyError
  end.

(** [df.to_dict('records')]: one [dict] per row, keyed by the column
    names; as with [dict(zip(columns, row))], a repeated name keeps its
    last cell. *)
Definition row_to_dict (cols : list string) (row : list value) : doc :=
  foldl (fun d kv => <[kv.1 := kv.2]> d) ∅ (zip cols row).

Definition to_dict_records (df : DataFrame) : list doc :=
  row_to_dict (columns df) <$> rows df.

(** [v.split(',')]: only a [str] has the method. *)
Definition py_split (v : value) : result (list string) :=
  match v with
  | VStr s => Return (split comma s)
  | _ => Raise AttributeError
  end.

(** ** Comparing values *)

(** The exact value of a number: [m * 2^e], an infinity, or NaN. *)
Inductive number : Type :=
  | NNaN
  | NInf (negative : bool)
  | NFin (m e : Z).

Definition number_of_float (f : spec_float) : number :=
  match f with
  | S754_zero _ => NFin 0 0
  | S754_infinity s => NInf s
  | S754_nan => NNaN
  | S754_finite s m e => NFin (if s then Zneg m else Zpos m) e
  end.

(** [None]: unordered (a NaN is involved). *)
Definition number_compare (a b : number) : option comparison :=
  match a, b with
  | NNaN, _ | _, NNaN => None
  | NInf s1, NInf s2 => Some (if s1 then if s2 then Eq else Lt
                              else if s2 then Gt else Eq)
  | NInf s, NFin _ _ => Some (if s then Lt else Gt)
  | NFin _ _, NInf s => Some (if s then Gt else Lt)
  | NFin m1 e1, NFin m2 e2 =>
      let e := Z.min e1 e2 in
      Some (Z.compare (m1 * 2 ^ (e1 - e)) (m2 * 2 ^ (e2 - e)))
  end.

(** Python's numeric tower: [bool] is an [int]. *)
Definition py_number (v : value) : option number :=
  match v with
  | VBool b => Some (NFin (if b then 1 else 0) 0)
  | VInt z => Some (NFin z 0)
  | VFloat f => Some (number_of_float f)
  | _ => None
  end.

(** BSON's numbers: int, long and double; a boolean is not one. *)
Definition bson_number (v : value) : option number :=
  match v with
  | VInt z => Some (NFin z 0)
  | VFloat f => Some (number_of_float f)
  | _ => None
  end.

Section DeepEquality.
(** Equality of two values that are not lists. *)
Variable scalar_eqb : value -> value -> bool.

Fixpoint deep_eqb (a b : value) : bool :=
  match a, b with
  | VList l1, VList l2 =>
      (fix go (l1 l2 : list value) : bool :=
         match l1, l2 with
         | [], [] => true
         | x :: r1, y :: r2 => deep_eqb x y && go r1 r2
         | _, _ => false
         end) l1 l2
  | VList _, _ | _, VList _ => false
  | _, _ => scalar_eqb a b
  end.
End DeepEquality.

(** [a == b] in Python: numbers by value ([nan != nan]), never raises. *)
Definition py_scalar_eqb (a b : value) : bool :=
  match py_number a, py_number b with
  | Some x, Some y => match number_compare x y with Some Eq => true | _ => false end
  | _, _ =>
      match a, b with
      | VStr s, VStr t => String.eqb s t
      | VObjectId o, VObjectId p => N.eqb o p
      | _, _ => false
      end
  end.
Definition py_eqb : value -> value -> bool := deep_eqb py_scalar_eqb.

(** Equality in a query of the store: numbers by value across int, long
    and double, NaN equal to NaN, strings byte for byte. *)
Definition bson_scalar_eqb (a b : value) : bool :=
  match bson_number a, bson_number b with
  | Some NNaN, Some NNaN => true
  | Some x, Some y => match number_compare x y with Some Eq => true | _ => false end
  | _, _ =>
      match a, b with
      | VBool x, VBool y => Bool.eqb x y
      | VStr s, VStr t => String.eqb s t
      | VObjectId o, VObjectId p => N.eqb o p
      | _, _ => false
      end
  end.
Definition bson_eqb : value -> value -> bool := deep_eqb bson_scalar_eqb.

(** [a < b] in Python: numbers by value, strings by code point, lists
    lexicographically; [TypeError] between the kinds. *)
Fixpoint py_lt (a b : value) : result bool :=
  match a, b with
  | VList l1, VList l2 =>
      (fix go (l1 l2 : list value) : result bool :=
         match l1, l2 with
         | [], [] => Return false
         | [], _ :: _ => Return true
         | _ :: _, [] => Return false
         | x :: r1, y :: r2 => if py_eqb x y then go r1 r2 else py_lt x y
         end) l1 l2
  | VStr s, VStr t => Return (String.ltb s t)
  | VObjectId o, VObjectId p => Return (N.ltb o p)
  | _, _ =>
      match py_number a, py_number b with
      | Some x, Some y =>
          Return (match number_compare x y with Some Lt => true | _ => false end)
      | _, _ => Raise TypeError
      end
  end.

(** [sorted(l)]: a stable sort that uses [<] alone and fails with the
    first comparison that fails. Python's own algorithm chooses other
    pairs to compare; the results agree where [<] is a total order on the
    elements, and both raise [TypeError] when the list mixes two kinds
    that do not compare (a sort has to compare across them). *)
Fixpoint insert_sorted (x : value) (l : list value) : result (list value) :=
  match l with
  | [] => Return [x]
  | y :: l' =>
      b ← py_lt y x;
      if b : bool then r ← insert_sorted x l'; Return (y :: r)
      else Return (x :: y :: l')
  end.

Definition py_sorted (l : list value) : result (list value) :=
  foldr (fun x acc => s ← acc; insert_sorted x s) (Return []) l.

(** [x in l] *)
Definition py_in (x : value) (l : list value) : bool := existsb (py_eqb x) l.

(** ** The document store: schemas *)

Inductive bson_type : Type :=
  | BsonString
  | BsonNumber      (* int, long or double *)
  | BsonInt         (* 32-bit integer *)
  | BsonArray.

(** The keywords the two schemas use under ["properties"]. *)
Record property : Type := {
  bsonType : bson_type;
  minimum : option Z;
  items : option bson_type      (* ["items": {"bsonType": ...}] *)
}.

(** A ["$jsonSchema"] of ["bsonType": "object"]. *)
Record json_schema : Type := {
  required : list string;
  properties : list (string * property)
}.

Definition int32 (z : Z) : bool := (- 2 ^ 31 <=? z) && (z <? 2 ^ 31).
Definition int64 (z : Z) : bool := (- 2 ^ 63 <=? z) && (z <? 2 ^ 63).

(** The BSON type the driver gives a Python value: an [int] is an int
    when it fits 32 bits and a long otherwise, a [float] a double. *)
Definition has_bson_type (t : bson_type) (v : value) : bool :=
  match t, v with
  | BsonString, VStr _ => true
  | BsonNumber, (VInt _ | VFloat _) => true
  | BsonInt, VInt z => int32 z
  | BsonArray, VList _ => true
  | _, _ => false
  end.

(** ["minimum"] constrains numbers only; NaN is below every bound. *)
Definition meets_minimum (bound : Z) (v : value) : bool :=
  match bson_number v with
  | Some x => match number_compare x (NFin bound 0) with
              | Some (Eq | Gt) => true
              | _ => false
              end
  | None => true
  end.

(** ["items"] constrains arrays only. *)
Definition meets_items (t : bson_type) (v : value) : bool :=
  match v with
  | VList l => forallb (has_bson_type t) l
  | _ => true
  end.

Definition meets_property (p : property) (v : value) : bool :=
  has_bson_type (bsonType p) v
  && from_option (fun b => meets_minimum b v) true (minimum p)
  && from_option (fun t => meets_items t v) true (items p).

(** A property constrains a field only when the field is present. *)
Definition validate (schema : json_schema) (d : doc) : bool :=
  forallb (fun k => bool_decide (is_Some (d !! k))) (required schema)
  && forallb (fun kp => from_option (meets_property kp.2) true (d !! kp.1))
       (properties schema).

(** What the driver can encode: an [int] beyond 64 bits is an
    [OverflowError]. *)
Fixpoint encodable (v : value) : bool :=
  match v with
  | VInt z => int64 z
  | VList l => forallb encodable l
  | _ => true
  end.

Definition doc_encodable (d : doc) : bool :=
  bool_decide (map_Forall (fun _ v => encodable v = true) d).

(** ** The document store: queries *)

Definition is_upper (c : ascii) : bool :=
  let n := N_of_ascii c in ((65 <=? n) && (n <=? 90))%N.
Definition is_lower (c : ascii) : bool :=
  let n := N_of_ascii c in ((97 <=? n) && (n <=? 122))%N.
Definition is_digit (c : ascii) : bool :=
  let n := N_of_ascii c in ((48 <=? n) && (n <=? 57))%N.

Definition to_lower (c : ascii) : ascii :=
  if is_upper c then ascii_of_N (N_of_ascii c + 32) else c.

Fixpoint prefix_caseless (p s : string) : bool :=
  match p, s with
  | EmptyString, _ => true
  | String a p', String b s' =>
      Ascii.eqb (to_lower a) (to_lower b) && prefix_caseless p' s'
  | String _ _, EmptyString => false
  end.

(** The pattern occurs somewhere in the subject, letter case ignored. *)
Fixpoint find_caseless (p s : string) : bool :=
  prefix_caseless p s
  || match s with
     | EmptyString => false
     | String _ s' => find_caseless p s'
     end.

Fixpoint string_forallb (f : ascii -> bool) (s : string) : bool :=
  match s with
  | EmptyString => true
  | String c s' => f c && string_forallb f s'
  end.

(** A pattern of letters, digits and blanks has no metacharacter: it
    stands for itself. *)
Definition is_plain (c : ascii) : bool :=
  is_upper c || is_lower c || is_digit c || Ascii.eqb c " "%char.

(** A pattern that opens a group and holds no [")"] (and no backslash or
    bracket to quote the ["("]) is malformed: the group never closes. *)
Definition unclosed_group (p : string) : bool :=
  negb (string_forallb (fun c => negb (Ascii.eqb c "("%char)) p)
  && string_forallb (fun c => negb (Ascii.eqb c ")"%char || Ascii.eqb c "\"%char
                                    || Ascii.eqb c "["%char)) p.

(** The conditions on one field that the two scripts write. *)
Inductive condition : Type :=
  | Eq_ (v : value)                (* [{field: v}] *)
  | In_ (vs : list value)          (* [{field: {"$in": vs}}] *)
  | RegexI (pattern : string).     (* [{field: {"$regex": p, "$options": "i"}}] *)

Inductive filter : Type :=
  | Everything                                (* [{}] *)
  | Field (field : string) (c : condition)
  | Or_ (fs : list filter).                   (* [{"$or": fs}] *)

Section Queries.
Context `{Externals}.

(** [{"$regex": pattern, "$options": "i"}]: the compiled matcher, or
    [None] for a pattern the store rejects. *)
Definition regex_compile (pattern : string) : option (string -> bool) :=
  if string_forallb is_plain pattern then Some (find_caseless pattern)
  else if unclosed_group pattern then None
  else pcre_caseless pattern.

(** A stored value meets [{field: q}] when it equals [q] or is an array
    with an element equal to [q]. *)
Definition value_matches (q : value) (v : value) : bool :=
  bson_eqb v q
  || match v with
     | VList l => existsb (fun x => bson_eqb x q) l
     | _ => false
     end.

(** A regular expression matches strings only, or an array through one
    of its strings. *)
Definition regex_matches (m : string -> bool) (v : value) : bool :=
  match v with
  | VStr s => m s
  | VList l => existsb (fun x => match x with VStr s => m s | _ => false end) l
  | _ => false
  end.

(** An absent field meets none of these conditions. *)
Definition condition_holds (c : condition) (v : option value) : bool :=
  match v with
  | None => false
  | Some v =>
      match c with
      | Eq_ q => value_matches q v
      | In_ qs => existsb (fun q => value_matches q v) qs
      | RegexI p => from_option (fun m => regex_matches m v) false (regex_compile p)
      end
  end.

Fixpoint matches (f : filter) (d : doc) : bool :=
  match f with
  | Everything => true
  | Field k c => condition_holds c (d !! k)
  | Or_ fs => existsb (fun f' => matches f' d) fs
  end.

(** The store parses the query first: a malformed pattern fails the
    whole query, whatever the collection holds. *)
Fixpoint well_formed (f : filter) : bool :=
  match f with
  | Everything => true
  | Field _ (RegexI p) => bool_decide (is_Some (regex_compile p))
  | Field _ _ => true
  | Or_ fs => forallb well_formed fs
  end.

(** [collection.find(f)], in the order the documents were stored. *)
Definition find (f : filter) (stored : list doc) : result (list doc) :=
  if well_formed f then Return (List.filter (matches f) stored)
  else Raise OperationFailure.

(** [collection.find_one(f)] *)
Definition find_one (f : filter) (stored : list doc) : result (option doc) :=
  ds ← find f stored; Return (head ds).
End Queries.

(** [collection.distinct(field)]: the values of the field over the
    collection, the elements of an array each on their own, without
    repeats (the first of equal values stays). *)
Definition field_values (field : string) (d : doc) : list value :=
  match d !! field with
  | Some (VList l) => l
  | Some v => [v]
  | None => []
  end.

Definition add_distinct (seen : list value) (v : value) : list value :=
  if existsb (bson_eqb v) seen then seen else seen ++ [v].

Definition distinct (field : string) (stored : list doc) : list value :=
  foldl add_distinct [] (stored ≫= field_values field).

(** ** The document store: writes *)

(** The driver gives a document without ["_id"] a new [ObjectId]; the
    model draws it above every [ObjectId] in sight. *)
Definition oid_bound (d : doc) : N :=
  match d !! "_id" with
  | Some (VObjectId o) => N.succ o
  | _ => 0%N
  end.

Definition fresh_oid (ds : list doc) : N := foldr N.max 0%N (oid_bound <$> ds).

Fixpoint assign_ids (n : N) (batch : list doc) : list doc :=
  match batch with
  | [] => []
  | d :: rest =>
      match d !! "_id" with
      | Some _ => d :: assign_ids n rest
      | None => <["_id" := VObjectId n]> d :: assign_ids (N.succ n) rest
      end
  end.

Definition id_taken (i : value) (stored : list doc) : bool :=
  existsb (fun d => from_option (bson_eqb i) false (d !! "_id")) stored.

(** The store takes one document: the collection's validator first, then
    the unique index on ["_id"]. *)
Definition store_insert (validator : json_schema) (stored : list doc) (d : doc)
  : result (list doc) :=
  if negb (validate validator d) then Raise WriteError
  else match d !! "_id" with
       | Some (VList _) => Raise WriteError
       | Some i => if id_taken i stored then Raise DuplicateKeyError
                   else Return (stored ++ [d])
       | None => Return (stored ++ [d])
       end.

(** [collection.insert_one(d)]: the new collection, or the exception and
    the collection as it was. *)
Definition insert_one (validator : json_schema) (d : doc) (stored : list doc)
  : result value * list doc :=
  let i := VObjectId (fresh_oid (d :: stored)) in
  let d := if d !! "_id" is Some _ then d else <["_id" := i]> d in
  if negb (doc_encodable d) then (Raise OverflowError, stored)
  else match store_insert validator stored d with
       | Return stored' => (Return (default i (d !! "_id")), stored')
       | Raise e => (Raise e, stored)
       end.

(** An ordered bulk insert: the documents go in one by one, and the first
    one the store refuses ends the operation; those before it stay. *)
Fixpoint insert_ordered (validator : json_schema) (stored : list doc)
    (batch : list doc) : list doc * option exn :=
  match batch with
  | [] => (stored, None)
  | d :: rest =>
      match store_insert validator stored d with
      | Return stored' => insert_ordered validator stored' rest
      | Raise e => (stored, Some e)
      end
  end.

(** [collection.insert_many(batch)] with the default [ordered=True]: the
    ids of the documents, or the exception. The batch is taken to fit one
    message of the wire protocol, so that it is encoded as a whole before
    anything is sent. *)
Definition insert_many (validator : json_schema) (batch : list doc)
    (stored : list doc) : result (list value) * list doc :=
  match batch with
  | [] => (Raise TypeError, stored)
  | _ =>
      let batch := assign_ids (fresh_oid (batch ++ stored)) batch in
      if negb (forallb doc_encodable batch) then (Raise OverflowError, stored)
      else match insert_ordered validator stored batch with
           | (stored', None) =>
               (Return (omap (fun d => d !! "_id") batch), stored')
           | (stored', Some _) => (Raise BulkWriteError, stored')
           end
  end.

(** Two values with the same encoding. *)
Definition same_scalar (a b : value) : bool :=
  match a, b with
  | VBool x, VBool y => Bool.eqb x y
  | VInt x, VInt y => Z.eqb x y
  | VFloat (S754_zero s), VFloat (S754_zero t) => Bool.eqb s t
  | VFloat (S754_infinity s), VFloat (S754_infinity t) => Bool.eqb s t
  | VFloat S754_nan, VFloat S754_nan => true
  | VFloat (S754_finite s m e), VFloat (S754_finite t n f) =>
      Bool.eqb s t && Pos.eqb m n && Z.eqb e f
  | VStr s, VStr t => String.eqb s t
  | VObjectId o, VObjectId p => N.eqb o p
  | _, _ => false
  end.
Definition same_value : value -> value -> bool := deep_eqb same_scalar.

Section Update.
Context `{Externals}.

(** [collection.update_one(f, {"$set": {field: v}})], returning
    [modified_count]. The first document that meets [f] is the target;
    setting a field to the value it has modifies nothing; the changed
    document has to pass the validator, when the collection has one. *)
Definition update_one (validator : option json_schema) (f : filter)
    (field : string) (v : value) (stored : list doc) : result nat * list doc :=
  if negb (well_formed f) then (Raise OperationFailure, stored)
  else if negb (encodable v) then (Raise OverflowError, stored)
  else match list_find (fun d => matches f d) stored with
       | None => (Return 0%nat, stored)
       | Some (i, d) =>
           if from_option (same_value v) false (d !! field)
           then (Return 0%nat, stored)
           else let d' := <[field := v]> d in
                if from_option (fun s => validate s d') true validator
                then (Return 1%nat, <[i := d']> stored)
                else (Raise WriteError, stored)
       end.
End Update.

(** [ObjectId(x)]: an [ObjectId] as it is, a [str] of 24 hexadecimal
    digits read as one. *)
Definition hex_digit (c : ascii) : option N :=
  let n := N_of_ascii c in
  if is_digit c then Some (n - 48)%N
  else if ((97 <=? n) && (n <=? 102))%N then Some (n - 87)%N
  else if ((65 <=? n) && (n <=? 70))%N then Some (n - 55)%N
  else None.

Fixpoint hex_value (acc : N) (s : string) : option N :=
  match s with
  | EmptyString => Some acc
  | String c s' => d ← hex_digit c; hex_value (16 * acc + d)%N s'
  end.

Definition ObjectId (x : value) : result N :=
  match x with
  | VObjectId o => Return o
  | VStr s =>
      if (String.length s =? 24)%nat
      then from_option Return (Raise InvalidId) (hex_value 0 s)
      else Raise InvalidId
  | _ => Raise TypeError
  end.

(** ** Program state: the database and the page *)

(** What the page shows: one constructor per [st.success], [st.error],
    [st.warning] or [st.write] of the upload page, with the data that the
    message is formatted from. *)
Inductive message : Type :=
  | FileProcessed (file : string)            (* line 134 *)
  | FileInvalid (file : string)              (* line 137 *)
  | FilesSkipped (files : list string)       (* line 140 *)
  | TotalReady (n : nat)                     (* line 143 *)
  | Uploaded (n : nat)                       (* line 150 *)
  | UploadFailed (e : exn)                   (* line 152 *)
  | NoValidProducts.                         (* line 154 *)

(** The database [ondc_products] and the messages written so far. *)
Record state : Type := {
  products : list doc;
  categories : list doc;
  screen : list message
}.

(** A computation on the state that returns or raises; the state it
    leaves is kept in both cases. *)
Definition St (A : Type) : Type := state -> result A * state.

#[global] Instance St_ret : MRet St := fun A a s => (Return a, s).
#[global] Instance St_bind : MBind St := fun A B k m s =>
  match m s with
  | (Return a, s') => k a s'
  | (Raise e, s') => (Raise e, s')
  end.

Definition lift {A} (r : result A) : St A := fun s => (r, s).

Definition on_products {A} (op : list doc -> result A * list doc) : St A :=
  fun s => let (r, ds) := op (products s) in
           (r, {| products := ds; categories := categories s; screen := screen s |}).

Definition on_categories {A} (op : list doc -> result A * list doc) : St A :=
  fun s => let (r, ds) := op (categories s) in
           (r, {| products := products s; categories := ds; screen := screen s |}).

(** A query reads the collection and leaves it as it is. *)
Definition reading {A} (q : list doc -> result A) : list doc -> result A * list doc :=
  fun ds => (q ds, ds).

Definition emit (m : message) : St unit :=
  fun s => (Return (),
            {| products := products s; categories := categories s;
               screen := screen s ++ [m] |}).

(** [try: body except Exception as e: handler e] *)
Definition try_except {A} (body : St A) (handler : exn -> St A) : St A :=
  fun s => match body s with
           | (Return a, s') => (Return a, s')
           | (Raise e, s') => handler e s'
           end.

(** [for x in xs: body x] *)
Fixpoint for_each {A} (xs : list A) (body : A -> St unit) : St unit :=
  match xs with
  | [] => mret ()
  | x :: xs' => _ ← body x; for_each xs' body
  end.

(** Iterating over a value: the elements of a list, the characters of a
    string. *)
Fixpoint characters (s : string) : list value :=
  match s with
  | EmptyString => []
  | String c s' => VStr (String c EmptyString) :: characters s'
  end.

Definition py_iter (v : value) : result (list value) :=
  match v with
  | VList l => Return l
  | VStr s => Return (characters s)
  | _ => Raise TypeError
  end.

(** * [bulkUpload.py] *)

Module bulkUpload.

(** Lines 10-67: the two validators, installed when the script is loaded
    ([create_collection], or [collMod] when the collection exists). *)
Definition product_schema : json_schema := {|
  required := ["product_name"; "description"; "price"; "quantity"; "categories"];
  properties := [
    ("product_name", {| bsonType := BsonString; minimum := None; items := None |});
    ("description", {| bsonType := BsonString; minimum := None; items := None |});
    ("price", {| bsonType := BsonNumber; minimum := Some 0; items := None |});
    ("quantity", {| bsonType := BsonInt; minimum := Some 0; items := None |});
    ("categories", {| bsonType := BsonArray; minimum := None; items := Some BsonString |})
  ]
|}.

Definition categories_schema : json_schema := {|
  required := ["name"];
  properties := [
    ("name", {| bsonType := BsonString; minimum := None; items := None |})
  ]
|}.

Definition required_columns : list string :=
  ["product_name"; "description"; "price"; "quantity"; "categories"].

Definition validate_csv (df : DataFrame) : bool :=
  forallb (fun col => bool_decide (col ∈ columns df)) required_columns.

Definition save_products (batch : list doc) : St nat :=
  inserted_ids ← on_products (insert_many product_schema batch);
  mret (length inserted_ids).

Section WithExternals.
Context `{Externals}.

(** The body of the loop over [products] (lines 88-90). *)
Definition normalize (product : doc) : result doc :=
  p ← getitem product "price";
  price ← py_float p;
  let product := <["price" := price]> product in
  q ← getitem product "quantity";
  quantity ← py_int q;
  let product := <["quantity" := quantity]> product in
  c ← getitem product "categories";
  pieces ← py_split c;
  Return (<["categories" := VList (VStr ∘ strip <$> pieces)]> product).

Definition process_csv (file : UploadedFile) : result (option (list doc)) :=
  df ← read_csv file;
  if validate_csv df then
    products ← rmapM normalize (to_dict_records df);
    Return (Some products)
  else Return None.

Definition get_all_categories : St (list value) :=
  cats ← on_categories (reading (find Everything));
  lift (rmapM (fun cat => getitem cat "name") cats).

(** A document that [find_one] returns holds the field ["name"], so it
    is not the empty [dict] and counts as true. *)
Definition add_category (category_name : value) : St unit :=
  found ← on_categories (reading (find_one (Field "name" (Eq_ category_name))));
  match found with
  | None =>
      _ ← on_categories (insert_one categories_schema {["name" := category_name]});
      mret ()
  | Some _ => mret ()
  end.

Definition search_products (query : string) : St (list doc) :=
  let search_query :=
    Or_ [Field "product_name" (RegexI query);
         Field "description" (RegexI query);
         Field "category" (In_ [VStr query])] in
  on_products (reading (find search_query)).

(** ** The page "Upload Products" of [main] (lines 123-154) *)

(** Lines 130-137: the loop over the uploaded files. An exception of
    [process_csv] is not caught here. *)
Fixpoint process_files (uploaded_files : list UploadedFile)
    (all_products : list doc) (invalid_files : list string)
  : St (list doc * list string) :=
  match uploaded_files with
  | [] => mret (all_products, invalid_files)
  | uploaded_file :: rest =>
      products ← lift (process_csv uploaded_file);
      match products with
      | Some ((_ :: _) as products) =>
          _ ← emit (FileProcessed (name uploaded_file));
          process_files rest (all_products ++ products) invalid_files
      | _ =>
          _ ← emit (FileInvalid (name uploaded_file));
          process_files rest all_products (invalid_files ++ [name uploaded_file])
      end
  end.

(** Lines 146-148. *)
Definition register_categories (all_products : list doc) : St unit :=
  for_each all_products (fun product =>
    cs ← lift (c ← getitem product "categories"; py_iter c);
    for_each cs add_category).

(** Lines 145-152: the handler of the button "Upload All Products". *)
Definition upload_all (all_products : list doc) : St unit :=
  try_except
    (_ ← register_categories all_products;
     uploaded_count ← save_products all_products;
     emit (Uploaded uploaded_count))
    (fun e => emit (UploadFailed e)).

(** [upload_clicked] is what [st.button] returns. The static help text
    written below the uploader (lines 156-158) is left out. *)
Definition upload_page (uploaded_files : list UploadedFile)
    (upload_clicked : bool) : St unit :=
  match uploaded_files with
  | [] => mret ()
  | _ =>
      r ← process_files uploaded_files [] [];
      let all_products := r.1 in
      let invalid_files := r.2 in
      _ ← (match invalid_files with
           | [] => mret ()
           | _ => emit (FilesSkipped invalid_files)
           end);
      match all_products with
      | [] => emit NoValidProducts
      | _ =>
          _ ← emit (TotalReady (length all_products));
          if upload_clicked then upload_all all_products else mret ()
      end
  end.
End WithExternals.

End bulkUpload.

(** * [productCategorization.py] *)

Module productCategorization.

Section WithExternals.
Context `{Externals}.

(** The script works on the collection [products] of the same database
    and declares no validator of its own: the collection carries the
    one an earlier run of [bulkUpload.py] gave it, or none. *)
Variable validator : option json_schema.

Definition get_all_categories : St (list value) :=
  on_products (reading (fun stored => py_sorted (distinct "category" stored))).

Definition get_products_by_category (category : value) : St (list doc) :=
  on_products (reading (find (Field "category" (Eq_ category)))).

Definition update_product_category (product_id new_category : value) : St bool :=
  oid ← lift (ObjectId product_id);
  modified_count ← on_products
    (update_one validator (Field "_id" (Eq_ (VObjectId oid))) "category" new_category);
  mret (0 <? modified_count)%nat.

Definition add_new_category (new_category : value) : St bool :=
  existing_categories ← get_all_categories;
  if negb (py_in new_category existing_categories) then mret true
  else mret false.
End WithExternals.

End productCategorization.

(** * A runtime for worked examples

    The tables are given by file name; the numeric parsers read plain
    digit strings (and refuse whatever else); the regular-expression
    engine adds nothing to the patterns [regex_compile] decides. *)

Definition rectangularb (df : DataFrame) : bool :=
  forallb (fun row => (length row =? length (columns df))%nat) (rows df).

Fixpoint digits_value (acc : Z) (s : string) : option Z :=
  match s with
  | EmptyString => Some acc
  | String c s' =>
      if is_digit c
      then digits_value (10 * acc + Z.of_N (N_of_ascii c - 48)) s'
      else None
  end.

Definition digits (s : string) : option Z :=
  match s with
  | EmptyString => None
  | _ => digits_value 0 s
  end.

Definition example_read (tables : list (string * DataFrame)) (file : UploadedFile)
  : result DataFrame :=
  match list_find (fun t => t.1 = name file) tables with
  | Some (_, (_, df)) => if rectangularb df then Return df else Raise ParserError
  | None => Raise ParserError
  end.

Lemma example_read_rectangular tables file df :
  example_read tables file = Return df -> rectangular df.
Proof.
  unfold example_read.
  destruct (list_find _ tables) as [[_ [_ df']]|]; [|discriminate].
  destruct (rectangularb df') eqn:Hb; [|discriminate].
  intros [= <-]. unfold rectangularb in Hb. unfold rectangular.
  apply Forall_forall. intros row Hrow.
  rewrite forallb_forall in Hb. apply Nat.eqb_eq, Hb.
  by apply list_elem_of_In.
Qed.

Definition example_runtime (tables : list (string * DataFrame)) : Externals := {|
  read_csv := example_read tables;
  read_csv_rectangular := example_read_rectangular tables;
  float_of_str := fun s =>
    z ← digits s;
    match float_of_int z with Return f => Some f | Raise _ => None end;
  int_of_str := digits;
  pcre_caseless := fun _ => None
|}.

Definition csv (file_name : string) : UploadedFile :=
  {| name := file_name; content := "" |}.

(** The row of the specification: [Widget,desc,10,5,"a, b"]. *)
Definition widget_table : DataFrame := {|
  columns := ["product_name"; "description"; "price"; "quantity"; "categories"];
  rows := [[VStr "Widget"; VStr "desc"; VInt 10; VInt 5; VStr "a, b"]]
|}.

(** [10.0] *)
Definition ten : spec_float := S754_finite false 5629499534213120 (-49).

Definition widget : doc :=
  {[ "product_name" := VStr "Widget"; "description" := VStr "desc";
     "price" := VFloat ten; "quantity" := VInt 5;
     "categories" := VList [VStr "a"; VStr "b"] ]}.

(** A table whose second row has an empty categories cell, which the
    parser reads as NaN. *)
Definition blank_categories_table : DataFrame := {|
  columns := ["product_name"; "description"; "price"; "quantity"; "categories"];
  rows := [[VStr "Widget"; VStr "desc"; VInt 10; VInt 5; VStr "a, b"];
           [VStr "Gadget"; VStr "desc"; VInt 3; VInt 1; VFloat nan]]
|}.

(** A table with a price that is no number: the column is read as text. *)
Definition bad_price_table : DataFrame := {|
  columns := ["product_name"; "description"; "price"; "quantity"; "categories"];
  rows := [[VStr "Gizmo"; VStr "desc"; VStr "abc"; VInt 2; VStr "c"]]
|}.

(** A table without the column [price]. *)
Definition no_price_table : DataFrame := {|
  columns := ["product_name"; "description"; "quantity"; "categories"];
  rows := [[VStr "Gizmo"; VStr "desc"; VInt 2; VStr "c"]]
|}.

(** A table with a sixth column, [category]. *)
Definition extra_column_table : DataFrame := {|
  columns := ["product_name"; "description"; "price"; "quantity"; "categories";
              "category"];
  rows := [[VStr "Widget"; VStr "desc"; VInt 10; VInt 5; VStr "a, b"; VStr "toys"]]
|}.

Definition example_tables : list (string * DataFrame) :=
  [("widget.csv", widget_table); ("blank.csv", blank_categories_table);
   ("bad_price.csv", bad_price_table); ("no_price.csv", no_price_table);
   ("extra_column.csv", extra_column_table)].

Definition example : Externals := example_runtime example_tables.

Definition empty_state : state :=
  {| products := []; categories := []; screen := [] |}.


(** * Properties *)

Definition returns {A} (r : result A) : Prop := exists a, r = Return a.

(** ** Dictionaries built from rows *)

Lemma foldl_insert_is_Some (kvs : list (string * value)) (acc : doc) k :
  is_Some (acc !! k) \/ k ∈ kvs.*1 ->
  is_Some (foldl (fun d kv => <[kv.1 := kv.2]> d) acc kvs !! k).
Proof.
  revert acc. induction kvs as [|[k' v'] kvs IH]; intros acc [Hacc|Hin]; simpl.
  - done.
  - by apply elem_of_nil in Hin.
  - apply IH. left. destruct (decide (k' = k)) as [->|Hne].
    + rewrite lookup_insert_eq. eauto.
    + by rewrite lookup_insert_ne.
  - apply IH. simpl in Hin. apply elem_of_cons in Hin as [->|Hin].
    + left. rewrite lookup_insert_eq. eauto.
    + by right.
Qed.

Lemma foldl_insert_None (kvs : list (string * value)) (acc : doc) k :
  acc !! k = None -> k ∉ kvs.*1 ->
  foldl (fun d kv => <[kv.1 := kv.2]> d) acc kvs !! k = None.
Proof.
  revert acc. induction kvs as [|[k' v'] kvs IH]; intros acc Hacc Hin; simpl.
  - done.
  - simpl in Hin. apply not_elem_of_cons in Hin as [Hne Hin].
    apply IH; [|done]. by rewrite lookup_insert_ne.
Qed.

Lemma row_to_dict_is_Some cols row k :
  length row = length cols -> k ∈ cols -> is_Some (row_to_dict cols row !! k).
Proof.
  intros Hlen Hin. apply foldl_insert_is_Some. right.
  by rewrite fst_zip by lia.
Qed.

Lemma row_to_dict_None cols row k :
  k ∉ cols -> row_to_dict cols row !! k = None.
Proof.
  intros Hin. apply foldl_insert_None; [apply lookup_empty|].
  intros Hk. apply Hin.
  apply list_elem_of_fmap in Hk as [[k' v] [-> Hkv]].
  by apply elem_of_zip_l in Hkv.
Qed.

(** ** Loops that may raise *)

Lemma rmapM_Forall2 {A B} (f : A -> result B) xs ys :
  Forall2 (fun x y => f x = Return y) xs ys -> rmapM f xs = Return ys.
Proof.
  induction 1 as [|x y xs ys Hxy _ IH]; simpl; [done|].
  by rewrite Hxy; simpl; rewrite IH.
Qed.

Lemma rmapM_Return {A B} (f : A -> result B) xs ys :
  rmapM f xs = Return ys -> Forall2 (fun x y => f x = Return y) xs ys.
Proof.
  revert ys. induction xs as [|x xs IH]; intros ys; simpl.
  - intros [= <-]. constructor.
  - destruct (f x) as [y|e] eqn:Hx; simpl; [|discriminate].
    destruct (rmapM f xs) as [ys'|e] eqn:Hxs; simpl; [|discriminate].
    intros [= <-]. constructor; auto.
Qed.

(** ** Ingestion: what [process_csv] returns *)

Section IngestionFacts.
Context `{Externals}.

(** The cells of a row can be coerced: the price by [float], the
    quantity by [int], and the categories cell is text. *)
Definition coercible (row : doc) : Prop :=
  (forall p, row !! "price" = Some p -> returns (py_float p)) /\
  (forall q, row !! "quantity" = Some q -> returns (py_int q)) /\
  (forall c, row !! "categories" = Some c -> exists s, c = VStr s).

(** [product] is [row] with its three fields coerced, every other
    column as it was. *)
Definition normalized (row product : doc) : Prop :=
  exists p q c price quantity,
    row !! "price" = Some p /\ py_float p = Return price /\
    row !! "quantity" = Some q /\ py_int q = Return quantity /\
    row !! "categories" = Some (VStr c) /\
    product = <["categories" := VList (VStr ∘ strip <$> split comma c)]>
                (<["quantity" := quantity]> (<["price" := price]> row)).

Lemma normalize_normalized row product :
  bulkUpload.normalize row = Return product -> normalized row product.
Proof.
  unfold bulkUpload.normalize, getitem.
  destruct (row !! "price") as [p|] eqn:Hp; simpl; [|discriminate].
  destruct (py_float p) as [price|] eqn:Hprice; simpl; [|discriminate].
  rewrite lookup_insert_ne by done.
  destruct (row !! "quantity") as [q|] eqn:Hq; simpl; [|discriminate].
  destruct (py_int q) as [quantity|] eqn:Hquantity; simpl; [|discriminate].
  rewrite !lookup_insert_ne by done.
  destruct (row !! "categories") as [c|] eqn:Hc; simpl; [|discriminate].
  destruct c; simpl; try discriminate.
  intros [= <-]. by exists p, q, s, price, quantity.
Qed.

Lemma normalized_normalize row product :
  normalized row product -> bulkUpload.normalize row = Return product.
Proof.
  intros (p & q & c & price & quantity & Hp & Hprice & Hq & Hquantity & Hc & ->).
  unfold bulkUpload.normalize, getitem.
  rewrite Hp; simpl. rewrite Hprice; simpl.
  rewrite lookup_insert_ne by done. rewrite Hq; simpl. rewrite Hquantity; simpl.
  rewrite !lookup_insert_ne by done. by rewrite Hc.
Qed.

Lemma validate_csv_columns df col :
  bulkUpload.validate_csv df = true -> col ∈ bulkUpload.required_columns ->
  col ∈ columns df.
Proof.
  unfold bulkUpload.validate_csv. rewrite forallb_forall. intros Hall Hcol.
  apply list_elem_of_In, Hall in Hcol. by apply bool_decide_eq_true in Hcol.
Qed.

Lemma records_have_required file df row col :
  read_csv file = Return df -> bulkUpload.validate_csv df = true ->
  row ∈ to_dict_records df -> col ∈ bulkUpload.required_columns ->
  is_Some (row !! col).
Proof.
  intros Hread Hvalid Hrow Hcol. unfold to_dict_records in Hrow.
  apply list_elem_of_fmap in Hrow as [cells [-> Hcells]].
  apply read_csv_rectangular in Hread. unfold rectangular in Hread.
  rewrite Forall_forall in Hread.
  apply row_to_dict_is_Some; [by apply Hread|by eapply validate_csv_columns].
Qed.

Lemma coercible_normalized file df row :
  read_csv file = Return df -> bulkUpload.validate_csv df = true ->
  row ∈ to_dict_records df -> coercible row ->
  exists product, normalized row product.
Proof.
  intros Hread Hvalid Hrow (Hp & Hq & Hc).
  destruct (records_have_required file df row "price") as [p Hp']; try done.
  { repeat constructor. }
  destruct (records_have_required file df row "quantity") as [q Hq']; try done.
  { repeat constructor. }
  destruct (records_have_required file df row "categories") as [c Hc']; try done.
  { repeat constructor. }
  destruct (Hp _ Hp') as [price Hprice]. destruct (Hq _ Hq') as [quantity Hquantity].
  destruct (Hc _ Hc') as [s ->].
  eexists. by exists p, q, s, price, quantity.
Qed.

(** C1, as amended. For every file that parses into a table with the
    five required columns and whose rows all have a price that [float]
    accepts, a quantity that [int] accepts and a text in the categories
    cell, [process_csv] returns one record per data row, in order: the
    row with [price] replaced by its float coercion, [quantity] by its
    int coercion and [categories] by the comma-separated pieces of the
    cell, each stripped of surrounding whitespace, empty pieces kept. *)
Theorem process_csv_normalizes_rows file df :
  read_csv file = Return df ->
  bulkUpload.validate_csv df = true ->
  Forall coercible (to_dict_records df) ->
  exists products,
    bulkUpload.process_csv file = Return (Some products) /\
    length products = length (rows df) /\
    Forall2 normalized (to_dict_records df) products.
Proof.
  intros Hread Hvalid Hrows.
  assert (exists products, Forall2 normalized (to_dict_records df) products)
    as [products Hproducts].
  { assert (forall row, row ∈ to_dict_records df ->
                        row ∈ to_dict_records df) as Hsub by done.
    revert Hrows Hsub. generalize (to_dict_records df) at 1 2 4.
    induction 1 as [|row rest Hrow _ IH]; intros Hsub.
    - exists []. constructor.
    - destruct IH as [products IH].
      { intros row' Hrow'. apply Hsub. by right. }
      destruct (coercible_normalized file df row) as [product Hproduct];
        [done|done|apply Hsub; by left|done|].
      exists (product :: products). by constructor. }
  exists products. split; [|split; [|done]].
  - unfold bulkUpload.process_csv. rewrite Hread; simpl. rewrite Hvalid.
    erewrite rmapM_Forall2; [done|].
    eapply Forall2_impl; [exact Hproducts|]. apply normalized_normalize.
  - apply Forall2_length in Hproducts. rewrite <- Hproducts.
    unfold to_dict_records. by rewrite length_fmap.
Qed.
End IngestionFacts.

Example process_csv_widget :
  bulkUpload.process_csv (H := example) (csv "widget.csv")
  = Return (Some [widget]).
Proof. vm_compute. reflexivity. Qed.

(** C1 fails as stated: the table has the five columns, and the empty
    categories cell makes [process_csv] raise instead of returning. *)
Lemma process_csv_blank_categories_raises :
  read_csv (Externals := example) (csv "blank.csv")
    = Return blank_categories_table /\
  bulkUpload.validate_csv blank_categories_table = true /\
  bulkUpload.process_csv (H := example) (csv "blank.csv")
    = Raise AttributeError.
Proof. vm_compute. auto. Qed.

Lemma process_csv_normalizes_rows_witness :
  exists products,
    bulkUpload.process_csv (H := example) (csv "widget.csv")
      = Return (Some products) /\
    length products = length (rows widget_table) /\
    Forall2 (normalized (H := example))
      (to_dict_records widget_table) products.
Proof.
  apply (process_csv_normalizes_rows (H := example)
           (csv "widget.csv") widget_table).
  - reflexivity.
  - reflexivity.
  - constructor; [|constructor].
    repeat split; intros x Hx; vm_compute in Hx; injection Hx as <-;
      eexists; vm_compute; reflexivity.
Defined.

(** ** The loop over the uploaded files *)

(** Unfolding the two monads. *)
Ltac run :=
  unfold mbind, mret, St_bind, St_ret, result_bind, result_ret, lift,
    on_products, on_categories, reading, emit, try_except in *;
  simpl in *.

(** The state with more messages on the page. *)
Definition show (msgs : list message) (s : state) : state :=
  {| products := products s; categories := categories s;
     screen := screen s ++ msgs |}.

Lemma show_nil s : show [] s = s.
Proof. destruct s. unfold show; simpl. by rewrite app_nil_r. Qed.

Lemma show_show msgs msgs' s : show msgs' (show msgs s) = show (msgs ++ msgs') s.
Proof. unfold show; simpl. by rewrite app_assoc. Qed.

Section BatchFacts.
Context `{Externals}.

(** The file parses and its table lacks one of the required columns. *)
Definition missing_column (file : UploadedFile) : Prop :=
  exists df col, read_csv file = Return df /\
                 col ∈ bulkUpload.required_columns /\ col ∉ columns df.

(** The records a file contributes to the batch. *)
Definition records_of (file : UploadedFile) : list doc :=
  match bulkUpload.process_csv file with
  | Return (Some products) => products
  | _ => []
  end.

(** The file is reported as invalid: it gave no records. *)
Definition skipped (file : UploadedFile) : bool :=
  match bulkUpload.process_csv file with
  | Return (Some (_ :: _)) => false
  | _ => true
  end.

Definition file_message (file : UploadedFile) : message :=
  if skipped file then FileInvalid (name file) else FileProcessed (name file).

Lemma missing_column_None file :
  missing_column file -> bulkUpload.process_csv file = Return None.
Proof.
  intros (df & col & Hread & Hcol & Hmissing).
  unfold bulkUpload.process_csv. rewrite Hread; simpl.
  destruct (bulkUpload.validate_csv df) eqn:Hvalid; [|done].
  exfalso. apply Hmissing. by eapply validate_csv_columns.
Qed.

Lemma process_files_raises file rest e all_products invalid_files s :
  bulkUpload.process_csv file = Raise e ->
  bulkUpload.process_files (file :: rest) all_products invalid_files s
  = (Raise e, s).
Proof. intros Hfile. simpl. run. by rewrite Hfile. Qed.

Lemma process_files_returns files all_products invalid_files s :
  Forall (fun file => returns (bulkUpload.process_csv file)) files ->
  bulkUpload.process_files files all_products invalid_files s
  = (Return (all_products ++ files ≫= records_of,
             invalid_files ++ (name <$> List.filter skipped files)),
     show (file_message <$> files) s).
Proof.
  intros Hfiles. revert all_products invalid_files s.
  induction Hfiles as [|file rest [r Hfile] _ IH]; intros all_products invalid_files s.
  - simpl. run. by rewrite !app_nil_r, show_nil.
  - simpl. run. unfold records_of, skipped, file_message, skipped.
    rewrite Hfile. destruct r as [[|product products]|]; simpl; run.
    all: rewrite IH; unfold show; simpl; by rewrite <- !app_assoc.
Qed.

(** C2. A file that parses and lacks a required column makes
    [process_csv] return [None], without an exception. In a batch whose
    files each either lack a column or are ingested without an exception,
    the loop over the files ends normally: the products gathered are the
    records of the valid files, all of them and in order, the files that
    lack a column are in the list of invalid names, and the database is
    untouched. *)
Theorem missing_column_skips_that_file_only files s :
  Forall (fun file => missing_column file \/
                      returns (bulkUpload.process_csv file)) files ->
  (forall file, file ∈ files -> missing_column file ->
     bulkUpload.process_csv file = Return None /\ records_of file = [] /\
     name file ∈ (name <$> List.filter skipped files)) /\
  (forall file products, file ∈ files ->
     bulkUpload.process_csv file = Return (Some products) ->
     records_of file = products) /\
  bulkUpload.process_files files [] [] s
  = (Return (files ≫= records_of, name <$> List.filter skipped files),
     show (file_message <$> files) s).
Proof.
  intros Hfiles. split; [|split].
  - intros file Hin Hmissing. pose proof (missing_column_None _ Hmissing) as Hnone.
    split; [done|]. split; [unfold records_of; by rewrite Hnone|].
    apply list_elem_of_fmap. exists file. split; [done|].
    apply list_elem_of_In, filter_In. split; [by apply list_elem_of_In|].
    unfold skipped. by rewrite Hnone.
  - intros file products _ Hfile. unfold records_of. by rewrite Hfile.
  - rewrite process_files_returns; [done|].
    eapply Forall_impl; [exact Hfiles|]. intros file [Hmissing|Hreturns]; [|done].
    exists None. by apply missing_column_None.
Qed.
End BatchFacts.

Lemma missing_column_skips_that_file_only_witness :
  bulkUpload.process_csv (H := example) (csv "no_price.csv") = Return None /\
  bulkUpload.process_files (H := example)
    [csv "no_price.csv"; csv "widget.csv"] [] [] empty_state
  = (Return ([widget], ["no_price.csv"]),
     show [FileInvalid "no_price.csv"; FileProcessed "widget.csv"] empty_state).
Proof.
  assert (missing_column (H := example) (csv "no_price.csv")) as Hmissing.
  { exists no_price_table, "price". split; [reflexivity|]. split.
    - repeat constructor.
    - intros Hin. vm_compute in Hin. by repeat (apply elem_of_cons in Hin as [|Hin];
        [discriminate|]); apply elem_of_nil in Hin. }
  destruct (missing_column_skips_that_file_only (H := example)
              [csv "no_price.csv"; csv "widget.csv"] empty_state)
    as (Hinvalid & _ & Hloop).
  - constructor; [by left|]. constructor; [|constructor].
    right. exists (Some [widget]). vm_compute. reflexivity.
  - split.
    + apply Hinvalid; [by left|done].
    + rewrite Hloop. vm_compute. reflexivity.
Defined.

(** C3, on the code: a price that is no number makes [process_csv]
    raise, and the loop of the page does not catch the exception. With
    the file in a batch, before or after a valid one, the run of the page
    ends with that exception; the valid file's records are never offered
    for upload and nothing is stored. *)
Theorem bad_price_aborts_the_batch :
  bulkUpload.process_csv (H := example) (csv "bad_price.csv") = Raise ValueError /\
  bulkUpload.upload_page (H := example)
    [csv "bad_price.csv"; csv "widget.csv"] true empty_state
  = (Raise ValueError, empty_state) /\
  bulkUpload.upload_page (H := example)
    [csv "widget.csv"; csv "bad_price.csv"] true empty_state
  = (Raise ValueError, show [FileProcessed "widget.csv"] empty_state) /\
  bulkUpload.upload_page (H := example) [csv "widget.csv"] true empty_state
  = (Return (),
     {| products := [<["_id" := VObjectId 0]> widget];
        categories := [ {["_id" := VObjectId 0; "name" := VStr "a"]};
                        {["_id" := VObjectId 1; "name" := VStr "b"]} ];
        screen := [FileProcessed "widget.csv"; TotalReady 1; Uploaded 1] |}).
Proof. vm_compute. auto. Qed.

(** ** Bulk insert: [save_products] *)

Lemma bson_eqb_ObjectId o v : bson_eqb (VObjectId o) v = true -> v = VObjectId o.
Proof.
  destruct v; try discriminate. unfold bson_eqb; simpl.
  unfold bson_scalar_eqb; simpl. by intros ->%N.eqb_eq.
Qed.

Lemma fresh_oid_bound d ds : d ∈ ds -> (oid_bound d <= fresh_oid ds)%N.
Proof.
  unfold fresh_oid.
  induction 1 as [d ds|d d' ds _ IH]; rewrite fmap_cons; cbn [foldr]; lia.
Qed.

Lemma fresh_oid_app ds ds' :
  fresh_oid (ds ++ ds') = N.max (fresh_oid ds) (fresh_oid ds').
Proof.
  unfold fresh_oid. induction ds as [|d ds IH]; [simpl; lia|].
  rewrite <- app_comm_cons, !fmap_cons. cbn [foldr]. rewrite IH. lia.
Qed.

(** An [ObjectId] at or above the bound of a collection is not in it. *)
Lemma fresh_oid_not_taken n stored :
  (fresh_oid stored <= n)%N -> id_taken (VObjectId n) stored = false.
Proof.
  intros Hn. unfold id_taken. apply not_true_is_false. intros Htaken.
  apply existsb_exists in Htaken as (d & Hd & Heq).
  apply list_elem_of_In, fresh_oid_bound in Hd. unfold oid_bound in Hd.
  destruct (d !! "_id") as [i|]; simpl in Heq; [|done].
  apply bson_eqb_ObjectId in Heq as ->. lia.
Qed.

(** The driver's ids: every document of the batch leaves with one. *)
Lemma assign_ids_ids n batch :
  length (omap (fun d : doc => d !! "_id") (assign_ids n batch)) = length batch.
Proof.
  revert n. induction batch as [|d batch IH]; intros n; simpl; [done|].
  destruct (d !! "_id") as [i|] eqn:Hid; simpl.
  - rewrite Hid; simpl. by rewrite IH.
  - rewrite lookup_insert_eq; simpl. by rewrite IH.
Qed.

Lemma doc_encodable_insert_id (d : doc) n :
  d !! "_id" = None -> doc_encodable (<["_id" := VObjectId n]> d) = doc_encodable d.
Proof.
  intros Hid. unfold doc_encodable. apply bool_decide_ext.
  rewrite map_Forall_insert by done. tauto.
Qed.

Lemma assign_ids_encodable n batch :
  Forall (fun d : doc => d !! "_id" = None) batch ->
  Forall (fun d => doc_encodable d = true) batch ->
  forallb doc_encodable (assign_ids n batch) = true.
Proof.
  intros Hids. revert n. induction Hids as [|d batch Hid _ IH]; intros n Henc; [done|].
  apply Forall_cons in Henc as [Hd Hbatch]. simpl. rewrite Hid. simpl.
  rewrite doc_encodable_insert_id by done. rewrite Hd. by apply IH.
Qed.

(** The validator of the products says nothing about ["_id"]. *)
Lemma validate_product_insert_id (d : doc) i :
  validate bulkUpload.product_schema (<["_id" := i]> d)
  = validate bulkUpload.product_schema d.
Proof.
  unfold validate, bulkUpload.product_schema; simpl.
  by rewrite !lookup_insert_ne by done.
Qed.

(** The records of a batch up to the first one that violates the schema. *)
Fixpoint accepted (batch : list doc) : list doc :=
  match batch with
  | [] => []
  | d :: rest =>
      if validate bulkUpload.product_schema d then d :: accepted rest else []
  end.

Lemma accepted_all batch :
  forallb (validate bulkUpload.product_schema) batch = true -> accepted batch = batch.
Proof.
  induction batch as [|d batch IH]; simpl; [done|].
  intros [Hd Hbatch]%andb_true_iff. rewrite Hd. by rewrite IH.
Qed.

Lemma accepted_prefix good bad rest :
  Forall (fun d => validate bulkUpload.product_schema d = true) good ->
  validate bulkUpload.product_schema bad = false ->
  accepted (good ++ bad :: rest) = good /\
  forallb (validate bulkUpload.product_schema) (good ++ bad :: rest) = false.
Proof.
  intros Hgood Hbad. induction Hgood as [|d good Hd _ [IH1 IH2]]; simpl.
  - by rewrite Hbad.
  - rewrite Hd. simpl. by rewrite IH1, IH2.
Qed.

Lemma insert_ordered_accepted stored batch n :
  Forall (fun d : doc => d !! "_id" = None) batch ->
  (fresh_oid stored <= n)%N ->
  insert_ordered bulkUpload.product_schema stored (assign_ids n batch)
  = (stored ++ assign_ids n (accepted batch),
     if forallb (validate bulkUpload.product_schema) batch then None
     else Some WriteError).
Proof.
  intros Hids. revert stored n.
  induction Hids as [|d batch Hid _ IH]; intros stored n Hn; simpl.
  - by rewrite app_nil_r.
  - rewrite Hid. simpl. unfold store_insert.
    rewrite validate_product_insert_id.
    destruct (validate bulkUpload.product_schema d) eqn:Hd; simpl.
    + rewrite lookup_insert_eq, Hid. rewrite fresh_oid_not_taken by done.
      rewrite IH.
      * by rewrite <- app_assoc.
      * rewrite fresh_oid_app. unfold fresh_oid at 2; simpl. unfold oid_bound.
        rewrite lookup_insert_eq. lia.
    + by rewrite app_nil_r.
Qed.

(** The state with another collection of products. *)
Definition with_products (ds : list doc) (s : state) : state :=
  {| products := ds; categories := categories s; screen := screen s |}.

(** C4, as amended. For a batch of [N >= 1] records that the driver can
    encode and that bring no ["_id"] of their own: when some record
    violates the schema of the products, [save_products] raises the
    error of the bulk insert and what is persisted is the records before
    the first violating one (each with a new id), so none only when the
    first record is the one at fault; when no record violates the schema,
    it returns [N] and the [N] records are persisted. *)
Theorem save_products_stops_at_first_violation batch s :
  batch <> [] ->
  Forall (fun d : doc => d !! "_id" = None) batch ->
  Forall (fun d => doc_encodable d = true) batch ->
  bulkUpload.save_products batch s
  = (if forallb (validate bulkUpload.product_schema) batch
     then Return (length batch) else Raise BulkWriteError,
     with_products
       (products s ++ assign_ids (fresh_oid (batch ++ products s)) (accepted batch))
       s) /\
  (forallb (validate bulkUpload.product_schema) batch = true ->
   accepted batch = batch) /\
  (forall good bad rest,
     batch = good ++ bad :: rest ->
     Forall (fun d => validate bulkUpload.product_schema d = true) good ->
     validate bulkUpload.product_schema bad = false ->
     accepted batch = good /\
     forallb (validate bulkUpload.product_schema) batch = false).
Proof.
  intros Hne Hids Henc. split; [|split].
  - unfold bulkUpload.save_products. run. unfold insert_many.
    destruct batch as [|d batch]; [done|].
    rewrite assign_ids_encodable by done. simpl negb. cbv iota.
    rewrite insert_ordered_accepted.
    + destruct (forallb _ (d :: batch)); [|done].
      by rewrite assign_ids_ids.
    + done.
    + rewrite fresh_oid_app. lia.
  - apply accepted_all.
  - intros good bad rest -> Hgood Hbad. by apply accepted_prefix.
Qed.

(** [-1.0] *)
Definition minus_one : spec_float := S754_finite true 4503599627370496 (-52).

Definition negative_price_widget : doc := <["price" := VFloat minus_one]> widget.

(** C4 fails as stated: of two records, the second with a negative price,
    the first is persisted though the bulk insert fails. *)
Lemma save_products_keeps_valid_prefix :
  bulkUpload.save_products [widget; negative_price_widget] empty_state
  = (Raise BulkWriteError,
     with_products [<["_id" := VObjectId 0]> widget] empty_state).
Proof. vm_compute. reflexivity. Qed.

Lemma save_products_stops_at_first_violation_witness :
  bulkUpload.save_products [widget; negative_price_widget; widget] empty_state
  = (Raise BulkWriteError,
     with_products [<["_id" := VObjectId 0]> widget] empty_state) /\
  bulkUpload.save_products [widget; widget] empty_state
  = (Return 2%nat,
     with_products [<["_id" := VObjectId 0]> widget; <["_id" := VObjectId 1]> widget]
       empty_state).
Proof.
  split.
  - destruct (save_products_stops_at_first_violation
                [widget; negative_price_widget; widget] empty_state)
      as (Hsave & _ & _).
    + discriminate.
    + repeat constructor.
    + repeat constructor.
    + rewrite Hsave. vm_compute. reflexivity.
  - destruct (save_products_stops_at_first_violation [widget; widget] empty_state)
      as (Hsave & _ & _).
    + discriminate.
    + repeat constructor.
    + repeat constructor.
    + rewrite Hsave. vm_compute. reflexivity.
Defined.

(** ** Search: [search_products] *)

Lemma bson_eqb_str a b : bson_eqb (VStr a) (VStr b) = bool_decide (a = b).
Proof.
  unfold bson_eqb; simpl. unfold bson_scalar_eqb; simpl.
  destruct (String.eqb_spec a b) as [->|Hne].
  - by rewrite bool_decide_eq_true_2.
  - by rewrite bool_decide_eq_false_2.
Qed.

Section SearchFacts.
Context `{Externals}.

(** The condition on [product_name] and on [description]. *)
Definition text_matches (query : string) (v : option value) : bool :=
  condition_holds (RegexI query) v.

(** The condition on [category]. *)
Definition category_matches (query : string) (v : option value) : bool :=
  condition_holds (In_ [VStr query]) v.

Definition found (query : string) (d : doc) : bool :=
  text_matches query (d !! "product_name")
  || text_matches query (d !! "description")
  || category_matches query (d !! "category").

Lemma text_matches_plain query text :
  string_forallb is_plain query = true ->
  text_matches query (Some (VStr text)) = find_caseless query text.
Proof.
  intros Hplain. unfold text_matches, condition_holds, regex_compile.
  by rewrite Hplain.
Qed.

Lemma category_matches_str query c :
  category_matches query (Some (VStr c)) = bool_decide (c = query).
Proof.
  unfold category_matches, condition_holds. cbn [existsb]. unfold value_matches.
  rewrite bson_eqb_str. by rewrite !orb_false_r.
Qed.

(** C5, as amended. For every store and every search term that the
    store accepts as a regular expression, [search_products] leaves the
    store as it is and returns exactly the stored records, in stored
    order, that satisfy the OR of three conditions: the pattern matches
    [product_name], the pattern matches [description] (both ignoring
    letter case), or the term is the value of [category] (or one of its
    elements). A term of letters, digits and blanks matches a text when
    it occurs in it, case ignored, so it finds every record whose name
    holds it; a text category matches when it is the term itself; and
    when no record satisfies a condition the result is empty. *)
Theorem search_products_is_or_of_three query s :
  is_Some (regex_compile query) ->
  bulkUpload.search_products query s
  = (Return (List.filter (found query) (products s)), s) /\
  (string_forallb is_plain query = true ->
   forall d text, d ∈ products s ->
     d !! "product_name" = Some (VStr text) ->
     find_caseless query text = true ->
     d ∈ List.filter (found query) (products s)) /\
  (forall c, category_matches query (Some (VStr c)) = bool_decide (c = query)) /\
  category_matches query None = false /\
  (Forall (fun d => found query d = false) (products s) ->
   List.filter (found query) (products s) = []).
Proof.
  intros Hquery. split; [|split; [|split; [|split]]].
  - unfold bulkUpload.search_products. run. unfold find. simpl.
    rewrite (bool_decide_eq_true_2 _ Hquery). simpl.
    destruct s as [ps cs scr]; simpl. do 2 f_equal.
    apply filter_ext. intros d. unfold found, text_matches, category_matches.
    by rewrite orb_false_r, orb_assoc.
  - intros Hplain d text Hd Hname Hfind.
    apply list_elem_of_In, filter_In. split; [by apply list_elem_of_In|].
    unfold found. rewrite Hname, text_matches_plain by done. by rewrite Hfind.
  - apply category_matches_str.
  - done.
  - intros Hnone. induction Hnone as [|d ds Hd _ IH]; simpl; [done|].
    by rewrite Hd.
Qed.

(** ** Ingested records and the field [category] *)

(** C6, as amended. For every file whose table has no column named
    [category], the records that [process_csv] returns have no field
    [category], and the category condition of [search_products] holds of
    none of them, whatever the search term. *)
Theorem category_search_misses_ingested_records file df products :
  read_csv file = Return df ->
  "category" ∉ columns df ->
  bulkUpload.process_csv file = Return (Some products) ->
  forall product query, product ∈ products ->
    product !! "category" = None /\
    category_matches query (product !! "category") = false /\
    matches (Field "category" (In_ [VStr query])) product = false.
Proof.
  intros Hread Hcolumn Hprocess product query Hproduct.
  assert (product !! "category" = None) as Hnone.
  { unfold bulkUpload.process_csv in Hprocess. rewrite Hread in Hprocess.
    simpl in Hprocess. destruct (bulkUpload.validate_csv df); [|discriminate].
    destruct (rmapM bulkUpload.normalize (to_dict_records df)) as [ps|] eqn:Hps;
      simpl in Hprocess; [|discriminate].
    injection Hprocess as ->. apply rmapM_Return in Hps.
    apply list_elem_of_lookup in Hproduct as [i Hi].
    destruct (Forall2_lookup_r _ _ _ _ _ Hps Hi) as (row & Hrow & Hnormalize).
    apply normalize_normalized in Hnormalize
      as (p & q & c & price & quantity & _ & _ & _ & _ & _ & ->).
    rewrite !lookup_insert_ne by done.
    unfold to_dict_records in Hrow. rewrite list_lookup_fmap in Hrow.
    destruct (rows df !! i) as [cells|]; [|discriminate].
    injection Hrow as <-. by apply row_to_dict_None. }
  split; [done|]. simpl. unfold category_matches. by rewrite Hnone.
Qed.
End SearchFacts.

Definition stored_widget : doc := <["_id" := VObjectId 0]> widget.

Definition widget_store : state :=
  {| products := [stored_widget]; categories := []; screen := [] |}.

Example wid_finds_Widget :
  bulkUpload.search_products (H := example) "wid" widget_store
    = (Return [stored_widget], widget_store) /\
  bulkUpload.search_products (H := example) "zzz" widget_store
    = (Return [], widget_store).
Proof. vm_compute. auto. Qed.

(** C5 fails as stated: the term ["("] is no regular expression, and the
    search raises instead of returning records. *)
Lemma search_products_rejects_open_group :
  bulkUpload.search_products (H := example) "(" widget_store
  = (Raise OperationFailure, widget_store).
Proof. vm_compute. reflexivity. Qed.

Lemma search_products_is_or_of_three_witness :
  bulkUpload.search_products (H := example) "wid" widget_store
    = (Return [stored_widget], widget_store) /\
  stored_widget ∈ List.filter (found (H := example) "wid") (products widget_store).
Proof.
  destruct (search_products_is_or_of_three (H := example) "wid" widget_store)
    as (Hsearch & Hname & _).
  - vm_compute. eauto.
  - split.
    + rewrite Hsearch. vm_compute. reflexivity.
    + apply (Hname eq_refl stored_widget "Widget").
      * by left.
      * vm_compute. reflexivity.
      * vm_compute. reflexivity.
Defined.

(** The record that the table with the sixth column yields. *)
Definition toy_widget : doc := <["category" := VStr "toys"]> widget.

(** C6 fails as stated: a column [category] of the file becomes the
    field [category] of the record, and after the upload a search for its
    value finds the record through the category condition alone. *)
Lemma extra_column_reaches_category_search :
  bulkUpload.process_csv (H := example) (csv "extra_column.csv")
    = Return (Some [toy_widget]) /\
  matches (H := example) (Field "category" (In_ [VStr "toys"])) toy_widget = true /\
  text_matches (H := example) "toys" (toy_widget !! "product_name") = false /\
  text_matches (H := example) "toys" (toy_widget !! "description") = false /\
  (_ ← bulkUpload.upload_page (H := example) [csv "extra_column.csv"] true;
   bulkUpload.search_products (H := example) "toys") empty_state
  = (Return [<["_id" := VObjectId 0]> toy_widget],
     {| products := [<["_id" := VObjectId 0]> toy_widget];
        categories := [ {["_id" := VObjectId 0; "name" := VStr "a"]};
                        {["_id" := VObjectId 1; "name" := VStr "b"]} ];
        screen := [FileProcessed "extra_column.csv"; TotalReady 1; Uploaded 1] |}).
Proof. vm_compute. repeat split; reflexivity. Qed.

Lemma category_search_misses_ingested_records_witness :
  widget !! "category" = None /\
  category_matches (H := example) "a" (widget !! "category") = false /\
  matches (H := example) (Field "category" (In_ [VStr "a"])) widget = false.
Proof.
  apply (category_search_misses_ingested_records (H := example)
           (csv "widget.csv") widget_table [widget]).
  - reflexivity.
  - intros Hin. vm_compute in Hin.
    by repeat (apply elem_of_cons in Hin as [|Hin]; [discriminate|]);
      apply elem_of_nil in Hin.
  - vm_compute. reflexivity.
  - by left.
Defined.

(** ** The category store: [add_category] *)

(** The names of the stored categories, one per record that has one. *)
Definition names (cats : list doc) : list value :=
  omap (fun d : doc => d !! "name") cats.

(** No two records share a name. *)
Definition unique_names (cats : list doc) : Prop := NoDup (names cats).

(** A document that the validator of the categories accepts. *)
Definition category_record (d : doc) : Prop :=
  validate bulkUpload.categories_schema d = true.

Definition is_named (x : string) (d : doc) : bool :=
  match d !! "name" with
  | Some (VStr n) => bool_decide (n = x)
  | _ => false
  end.

Definition named (x : string) (cats : list doc) : Prop :=
  exists d, d ∈ cats /\ d !! "name" = Some (VStr x).

Definition count_named (x : string) (cats : list doc) : nat :=
  length (List.filter (is_named x) cats).

Definition with_categories (ds : list doc) (s : state) : state :=
  {| products := products s; categories := ds; screen := screen s |}.

(** The record that [add_category] stores. *)
Definition new_category (x : string) (stored : list doc) : doc :=
  <["_id" := VObjectId (fresh_oid stored)]> {["name" := VStr x]}.

Lemma category_record_name d :
  category_record d -> exists n, d !! "name" = Some (VStr n).
Proof.
  unfold category_record, validate; simpl.
  destruct (d !! "name") as [v|]; simpl; [|done].
  destruct v; simpl; try done. eauto.
Qed.

Lemma new_category_record x stored : category_record (new_category x stored).
Proof.
  unfold category_record, new_category, validate; simpl.
  rewrite lookup_insert_ne by done. by rewrite lookup_singleton_eq.
Qed.

Lemma names_app cats cats' : names (cats ++ cats') = names cats ++ names cats'.
Proof. unfold names. apply omap_app. Qed.

Lemma names_new_category x stored : names [new_category x stored] = [VStr x].
Proof.
  unfold names, new_category; simpl. rewrite lookup_insert_ne by done.
  by rewrite lookup_singleton_eq.
Qed.

Lemma named_names x cats : named x cats <-> VStr x ∈ names cats.
Proof.
  unfold named, names. rewrite list_elem_of_omap. naive_solver.
Qed.

Lemma named_dec x cats : named x cats \/ ~ named x cats.
Proof.
  induction cats as [|d cats [IH|IH]].
  - right. intros (d & Hd & _). by apply elem_of_nil in Hd.
  - left. destruct IH as (d' & Hd' & Hname). exists d'. split; [by right|done].
  - destruct (is_named x d) eqn:Hd.
    + left. exists d. split; [by left|]. unfold is_named in Hd.
      destruct (d !! "name") as [[]|]; try done.
      by apply bool_decide_eq_true in Hd as ->.
    + right. intros (d' & [->|Hd']%elem_of_cons & Hname).
      * unfold is_named in Hd. rewrite Hname in Hd.
        by rewrite bool_decide_eq_true_2 in Hd.
      * apply IH. by exists d'.
Qed.

Lemma count_named_absent x cats : ~ named x cats -> count_named x cats = 0%nat.
Proof.
  unfold count_named. induction cats as [|d cats IH]; intros Habsent; [done|].
  simpl. destruct (is_named x d) eqn:Hd.
  - exfalso. apply Habsent. exists d. split; [by left|]. unfold is_named in Hd.
    destruct (d !! "name") as [[]|]; try done.
    by apply bool_decide_eq_true in Hd as ->.
  - apply IH. intros (d' & Hd' & Hname). apply Habsent. exists d'.
    split; [by right|done].
Qed.

Lemma count_named_app x cats cats' :
  count_named x (cats ++ cats') = (count_named x cats + count_named x cats')%nat.
Proof. unfold count_named. by rewrite List.filter_app, length_app. Qed.

Lemma count_named_unique x cats :
  unique_names cats -> named x cats -> count_named x cats = 1%nat.
Proof.
  unfold unique_names. induction cats as [|d cats IH]; intros Hunique Hnamed.
  - destruct Hnamed as (d & Hd & _). by apply elem_of_nil in Hd.
  - change (d :: cats) with ([d] ++ cats) in *.
    rewrite names_app in Hunique. rewrite count_named_app.
    apply NoDup_app in Hunique as (_ & Hdisjoint & Hrest).
    destruct (is_named x d) eqn:Hd.
    + assert (d !! "name" = Some (VStr x)) as Hname.
      { unfold is_named in Hd. destruct (d !! "name") as [[]|]; try done.
        by apply bool_decide_eq_true in Hd as ->. }
      rewrite (count_named_absent x cats).
      * unfold count_named; simpl. by rewrite Hd.
      * intros Hin%named_names. apply (Hdisjoint (VStr x)); [|done].
        unfold names; simpl. rewrite Hname. by left.
    + rewrite IH; [unfold count_named; simpl; by rewrite Hd|done|].
      destruct Hnamed as (d' & [->|Hd']%elem_of_cons & Hname).
      * unfold is_named in Hd. rewrite Hname in Hd.
        by rewrite bool_decide_eq_true_2 in Hd.
      * by exists d'.
Qed.

Lemma head_filter_None {A} (f : A -> bool) l :
  head (List.filter f l) = None <-> Forall (fun a => f a = false) l.
Proof.
  induction l as [|a l IH]; simpl.
  - split; [constructor|done].
  - destruct (f a) eqn:Ha; simpl.
    + split; [done|]. intros [Hf _]%Forall_cons. congruence.
    + rewrite IH. split; [by constructor|by intros [_ ?]%Forall_cons].
Qed.

Section CategoryFacts.
Context `{Externals}.

(** The filter of [add_category], on a record of the store. *)
Lemma name_filter_record x d :
  category_record d -> matches (Field "name" (Eq_ (VStr x))) d = is_named x d.
Proof.
  intros [n Hn]%category_record_name. simpl. unfold is_named. rewrite Hn; simpl.
  unfold value_matches. rewrite bson_eqb_str. by rewrite orb_false_r.
Qed.

Lemma name_filter_absent x cats :
  Forall category_record cats -> ~ named x cats ->
  Forall (fun d => matches (Field "name" (Eq_ (VStr x))) d = false) cats.
Proof.
  intros Hrecords Habsent. apply Forall_forall. intros d Hd.
  rewrite Forall_forall in Hrecords. rewrite name_filter_record by auto.
  destruct (is_named x d) eqn:Hnamed; [|done].
  exfalso. apply Habsent. exists d. split; [done|]. unfold is_named in Hnamed.
  destruct (d !! "name") as [[]|]; try done.
  by apply bool_decide_eq_true in Hnamed as ->.
Qed.

Lemma name_filter_present x cats :
  named x cats ->
  exists d, head (List.filter (matches (Field "name" (Eq_ (VStr x)))) cats) = Some d.
Proof.
  intros (d & Hd & Hname).
  destruct (head (List.filter _ cats)) as [d'|] eqn:Hhead; [eauto|].
  apply head_filter_None in Hhead. rewrite Forall_forall in Hhead.
  specialize (Hhead d Hd). simpl in Hhead. rewrite Hname in Hhead.
  simpl in Hhead. unfold value_matches in Hhead. rewrite bson_eqb_str in Hhead.
  by rewrite bool_decide_eq_true_2 in Hhead.
Qed.

Lemma insert_one_category x stored :
  insert_one bulkUpload.categories_schema {["name" := VStr x]} stored
  = (Return (VObjectId (fresh_oid stored)), stored ++ [new_category x stored]).
Proof.
  unfold insert_one. rewrite lookup_singleton_ne by done.
  assert (fresh_oid ({["name" := VStr x]} :: stored) = fresh_oid stored) as ->.
  { unfold fresh_oid. rewrite fmap_cons. cbn [foldr]. unfold oid_bound at 1.
    rewrite lookup_singleton_ne by done. lia. }
  fold (new_category x stored).
  assert (doc_encodable (new_category x stored) = true) as ->.
  { unfold new_category. rewrite doc_encodable_insert_id
      by (by rewrite lookup_singleton_ne).
    unfold doc_encodable. apply bool_decide_eq_true_2.
    by apply map_Forall_singleton. }
  simpl. unfold store_insert. rewrite new_category_record. simpl.
  unfold new_category at 1 3. rewrite lookup_insert_eq. simpl.
  by rewrite fresh_oid_not_taken by lia.
Qed.

Lemma add_category_present x s :
  named x (categories s) -> bulkUpload.add_category (VStr x) s = (Return (), s).
Proof.
  intros [d Hd]%name_filter_present. unfold bulkUpload.add_category. run.
  unfold find_one, find. run. rewrite Hd. by destruct s.
Qed.

Lemma add_category_absent x s :
  Forall category_record (categories s) -> ~ named x (categories s) ->
  bulkUpload.add_category (VStr x) s
  = (Return (),
     with_categories (categories s ++ [new_category x (categories s)]) s).
Proof.
  intros Hrecords Habsent. unfold bulkUpload.add_category. run.
  unfold find_one, find. run.
  apply name_filter_absent in Habsent; [|done].
  apply head_filter_None in Habsent. simpl in Habsent. rewrite Habsent.
  by rewrite insert_one_category.
Qed.

(** Whatever the argument, [add_category] leaves the collection as it
    was or adds one record with a text name that no record matched. *)
Lemma add_category_effect v s :
  (bulkUpload.add_category v s).2 = s \/
  exists x, v = VStr x /\
    Forall (fun d => matches (Field "name" (Eq_ v)) d = false) (categories s) /\
    (bulkUpload.add_category v s).2
    = with_categories (categories s ++ [new_category x (categories s)]) s.
Proof.
  unfold bulkUpload.add_category. run. unfold find_one, find. run.
  destruct (head (List.filter _ (categories s))) as [d|] eqn:Hhead.
  { left. by destruct s. }
  apply head_filter_None in Hhead.
  destruct v as [b|z|f|x|l|o].
  4: { right. exists x. split; [done|]. split; [done|].
       by rewrite insert_one_category. }
  all: left; unfold insert_one; rewrite lookup_singleton_ne by done;
    destruct (negb (doc_encodable _)); [by destruct s|];
    unfold store_insert, validate; simpl;
    rewrite lookup_insert_ne by done; rewrite lookup_singleton_eq; simpl;
    by destruct s.
Qed.

Lemma add_category_unique v s :
  unique_names (categories s) ->
  unique_names (categories (bulkUpload.add_category v s).2).
Proof.
  intros Hunique. destruct (add_category_effect v s) as [->|(x & -> & Hnone & ->)];
    [done|].
  unfold with_categories; simpl. unfold unique_names.
  rewrite names_app, names_new_category.
  apply NoDup_app. split; [done|]. split; [|apply NoDup_singleton].
  intros w Hw ->%list_elem_of_singleton. unfold names in Hw.
  apply list_elem_of_omap in Hw as (d & Hd & Hname).
  rewrite Forall_forall in Hnone. specialize (Hnone d Hd). simpl in Hnone.
  rewrite Hname in Hnone. simpl in Hnone. unfold value_matches in Hnone.
  rewrite bson_eqb_str in Hnone. by rewrite bool_decide_eq_true_2 in Hnone.
Qed.

Lemma add_category_records v s :
  Forall category_record (categories s) ->
  Forall category_record (categories (bulkUpload.add_category v s).2) /\
  products (bulkUpload.add_category v s).2 = products s.
Proof.
  intros Hrecords. destruct (add_category_effect v s) as [->|(x & -> & _ & ->)];
    [done|].
  unfold with_categories; simpl. split; [|done].
  apply Forall_app. split; [done|]. constructor; [|constructor].
  apply new_category_record.
Qed.

Lemma get_all_categories_reads s :
  (bulkUpload.get_all_categories s).2 = s /\
  (Forall category_record (categories s) ->
   (bulkUpload.get_all_categories s).1 = Return (names (categories s))).
Proof.
  unfold bulkUpload.get_all_categories. run. unfold find. simpl.
  assert (List.filter (fun _ : doc => true) (categories s) = categories s) as ->.
  { induction (categories s) as [|d ds IH]; simpl; [done|]. by rewrite IH. }
  split; [by destruct s|]. intros Hrecords.
  assert (rmapM (fun cat : doc => getitem cat "name") (categories s)
          = Return (names (categories s))) as ->; [|done].
  induction Hrecords as [|d ds [n Hn]%category_record_name _ IH]; [done|].
  cbn [rmapM]. rewrite IH. unfold getitem, names. simpl. by rewrite Hn.
Qed.

(** C7. In a store of category records no two of which share a name:
    [add_category] with a text [x] returns without an exception; it
    changes nothing when a record is named [x] and otherwise appends one
    record named [x]; called twice, it leaves exactly one record named
    [x]; and every operation on the categories keeps the invariant:
    [add_category], whatever its argument, leaves a store of category
    records with unique names, and [get_all_categories] changes nothing. *)
Theorem add_category_keeps_names_unique x s :
  Forall category_record (categories s) ->
  unique_names (categories s) ->
  (named x (categories s) ->
   bulkUpload.add_category (VStr x) s = (Return (), s)) /\
  (~ named x (categories s) ->
   bulkUpload.add_category (VStr x) s
   = (Return (),
      with_categories (categories s ++ [new_category x (categories s)]) s)) /\
  (exists s1,
     bulkUpload.add_category (VStr x) s = (Return (), s1) /\
     bulkUpload.add_category (VStr x) s1 = (Return (), s1) /\
     count_named x (categories s1) = 1%nat) /\
  (forall v,
     unique_names (categories (bulkUpload.add_category v s).2) /\
     Forall category_record (categories (bulkUpload.add_category v s).2)) /\
  (bulkUpload.get_all_categories s).2 = s.
Proof.
  intros Hrecords Hunique.
  split; [apply add_category_present|].
  split; [by apply add_category_absent|].
  split; [|split].
  - pose proof (add_category_unique (VStr x) s Hunique) as Hunique1.
    destruct (named_dec x (categories s)) as [Hnamed|Habsent].
    + exists s. rewrite add_category_present by done.
      repeat split. by apply count_named_unique.
    + rewrite add_category_absent in * by done. eexists. split; [done|].
      assert (named x (categories s ++ [new_category x (categories s)])) as Hnamed.
      { exists (new_category x (categories s)). split.
        - apply elem_of_app. right. by left.
        - unfold new_category. rewrite lookup_insert_ne by done.
          by rewrite lookup_singleton_eq. }
      split; [by apply add_category_present|].
      by apply count_named_unique.
  - intros v. split; [by apply add_category_unique|by apply add_category_records].
  - apply get_all_categories_reads.
Qed.
End CategoryFacts.

Lemma add_category_keeps_names_unique_witness :
  exists s1,
    bulkUpload.add_category (H := example) (VStr "X") empty_state = (Return (), s1) /\
    bulkUpload.add_category (H := example) (VStr "X") s1 = (Return (), s1) /\
    count_named "X" (categories s1) = 1%nat.
Proof.
  destruct (add_category_keeps_names_unique (H := example) "X" empty_state)
    as (_ & _ & Htwice & _).
  - constructor.
  - constructor.
  - exact Htwice.
Defined.

Example add_category_twice :
  (_ ← bulkUpload.add_category (H := example) (VStr "X");
   bulkUpload.add_category (H := example) (VStr "X")) empty_state
  = (Return (),
     with_categories [ {["_id" := VObjectId 0; "name" := VStr "X"]} ] empty_state).
Proof. vm_compute. reflexivity. Qed.

(** ** The upload: categories first, products after *)

(** The labels of a product. *)
Definition product_categories (product : doc) : list value :=
  match product !! "categories" with
  | Some (VList l) => l
  | _ => []
  end.

Section UploadFacts.
Context `{Externals}.

(** A record as ingestion makes it: its categories are a list of texts. *)
Definition has_labels (product : doc) : Prop :=
  exists cs : list string, product !! "categories" = Some (VList (VStr <$> cs)).

Lemma normalized_has_labels row product : normalized row product -> has_labels product.
Proof.
  intros (p & q & c & price & quantity & _ & _ & _ & _ & _ & ->).
  exists (strip <$> split comma c). rewrite lookup_insert_eq.
  by rewrite <- list_fmap_compose.
Qed.

Lemma process_csv_has_labels file products :
  bulkUpload.process_csv file = Return (Some products) -> Forall has_labels products.
Proof.
  unfold bulkUpload.process_csv. destruct (read_csv file) as [df|]; [|done].
  simpl. destruct (bulkUpload.validate_csv df); [|done].
  destruct (rmapM _ _) as [ps|] eqn:Hps; [|done]. simpl. intros [= <-].
  apply rmapM_Return in Hps. apply Forall_forall. intros product Hproduct.
  apply list_elem_of_lookup in Hproduct as [i Hi].
  destruct (Forall2_lookup_r _ _ _ _ _ Hps Hi) as (row & _ & Hnormalize).
  eapply normalized_has_labels. by apply normalize_normalized.
Qed.

Lemma add_category_named x c s :
  Forall category_record (categories s) ->
  exists s', bulkUpload.add_category (VStr x) s = (Return (), s') /\
    products s' = products s /\ screen s' = screen s /\
    Forall category_record (categories s') /\
    named x (categories s') /\
    (named c (categories s) -> named c (categories s')).
Proof.
  intros Hrecords. destruct (named_dec x (categories s)) as [Hnamed|Habsent].
  - exists s. by rewrite add_category_present.
  - rewrite add_category_absent by done. eexists. split; [done|].
    unfold with_categories; simpl. repeat split; try done.
    + apply Forall_app. split; [done|]. constructor; [|constructor].
      apply new_category_record.
    + exists (new_category x (categories s)). split.
      * apply elem_of_app. right. by left.
      * unfold new_category. rewrite lookup_insert_ne by done.
        by rewrite lookup_singleton_eq.
    + intros (d & Hd & Hname). exists d. split; [|done].
      apply elem_of_app. by left.
Qed.

(** The inner loop, over the labels of one product. *)
Lemma register_labels cs s :
  Forall category_record (categories s) ->
  exists s', for_each (VStr <$> cs) bulkUpload.add_category s = (Return (), s') /\
    products s' = products s /\ screen s' = screen s /\
    Forall category_record (categories s') /\
    (forall c, named c (categories s) \/ c ∈ cs -> named c (categories s')).
Proof.
  revert s. induction cs as [|x cs IH]; intros s Hrecords.
  - exists s. repeat split; try done. intros c [Hc|Hc]; [done|].
    by apply elem_of_nil in Hc.
  - destruct (add_category_named x x s Hrecords)
      as (s1 & Hadd & Hproducts1 & Hscreen1 & Hrecords1 & Hx & _).
    destruct (IH s1 Hrecords1) as (s2 & Hrest & Hproducts2 & Hscreen2 & Hrecords2 & Hnamed).
    exists s2. rewrite fmap_cons. cbn [for_each]. run. rewrite Hadd.
    split; [done|]. split; [congruence|]. split; [congruence|]. split; [done|].
    intros c [Hc|[->|Hc]%elem_of_cons]; apply Hnamed; auto.
    left. destruct (add_category_named x c s Hrecords)
      as (s1' & Hadd' & _ & _ & _ & _ & Hkeep).
    rewrite Hadd in Hadd'. injection Hadd' as <-. auto.
Qed.

Lemma register_categories_registers all_products s :
  Forall category_record (categories s) ->
  Forall has_labels all_products ->
  exists s', bulkUpload.register_categories all_products s = (Return (), s') /\
    products s' = products s /\ screen s' = screen s /\
    Forall category_record (categories s') /\
    (forall c, named c (categories s) -> named c (categories s')) /\
    (forall product c, product ∈ all_products ->
       VStr c ∈ product_categories product -> named c (categories s')).
Proof.
  intros Hrecords Hlabels. revert s Hrecords.
  induction Hlabels as [|product rest [cs Hcs] _ IH]; intros s Hrecords.
  - exists s. repeat split; try done. intros product c Hin.
    by apply elem_of_nil in Hin.
  - destruct (register_labels cs s Hrecords)
      as (s1 & Hinner & Hproducts1 & Hscreen1 & Hrecords1 & Hnamed1).
    destruct (IH s1 Hrecords1)
      as (s2 & Hrest & Hproducts2 & Hscreen2 & Hrecords2 & Hkeep & Hnamed2).
    exists s2. unfold bulkUpload.register_categories in *. cbn [for_each].
    run. unfold getitem. rewrite Hcs. simpl. rewrite Hinner.
    split; [done|]. split; [congruence|]. split; [congruence|]. split; [done|].
    split; [auto|].
    intros product' c [->|Hin]%elem_of_cons Hc; [|by eapply Hnamed2].
    apply Hkeep, Hnamed1. right. unfold product_categories in Hc.
    rewrite Hcs in Hc. apply list_elem_of_fmap in Hc as (c' & [= ->] & Hc').
    done.
Qed.

Lemma save_products_categories batch s :
  categories (bulkUpload.save_products batch s).2 = categories s /\
  screen (bulkUpload.save_products batch s).2 = screen s.
Proof.
  unfold bulkUpload.save_products. run.
  by destruct (insert_many _ _ _) as [[ids|e] ds].
Qed.

(** C9. For every batch made of records that [process_csv] returned, in
    a store of category records: the upload first runs the registration
    loop, which ends without an exception, leaves the products as they
    were and leaves every label of every product of the batch as the name
    of a stored category; only then is the batch handed to
    [save_products], which does not touch the categories. So after the
    upload, successful or not, every category that a product of the batch
    refers to exists as a category record. *)
Theorem upload_registers_categories_first all_products s :
  Forall category_record (categories s) ->
  Forall (fun product => exists file products,
            bulkUpload.process_csv file = Return (Some products) /\
            product ∈ products) all_products ->
  exists s1,
    bulkUpload.register_categories all_products s = (Return (), s1) /\
    products s1 = products s /\
    (forall product c, product ∈ all_products ->
       VStr c ∈ product_categories product -> named c (categories s1)) /\
    categories (bulkUpload.save_products all_products s1).2 = categories s1 /\
    bulkUpload.upload_all all_products s
    = (Return (),
       show [match (bulkUpload.save_products all_products s1).1 with
             | Return uploaded_count => Uploaded uploaded_count
             | Raise e => UploadFailed e
             end] (bulkUpload.save_products all_products s1).2) /\
    (forall product c, product ∈ all_products ->
       VStr c ∈ product_categories product ->
       named c (categories (bulkUpload.upload_all all_products s).2)).
Proof.
  intros Hrecords Hingested.
  assert (Forall has_labels all_products) as Hlabels.
  { eapply Forall_impl; [exact Hingested|]. intros product (file & ps & Hfile & Hin).
    apply process_csv_has_labels in Hfile. rewrite Forall_forall in Hfile. auto. }
  destruct (register_categories_registers all_products s Hrecords Hlabels)
    as (s1 & Hregister & Hproducts & _ & _ & _ & Hnamed).
  destruct (save_products_categories all_products s1) as [Hcategories _].
  assert (bulkUpload.upload_all all_products s
          = (Return (),
             show [match (bulkUpload.save_products all_products s1).1 with
                   | Return uploaded_count => Uploaded uploaded_count
                   | Raise e => UploadFailed e
                   end] (bulkUpload.save_products all_products s1).2)) as Hupload.
  { unfold bulkUpload.upload_all. run. rewrite Hregister.
    by destruct (bulkUpload.save_products all_products s1) as [[n|e] s2]. }
  exists s1. repeat split; try done.
  intros product c Hin Hc. rewrite Hupload. unfold show; simpl.
  rewrite Hcategories. by eapply Hnamed.
Qed.
End UploadFacts.

Lemma upload_registers_categories_first_witness :
  exists s1,
    bulkUpload.register_categories (H := example) [widget] empty_state
      = (Return (), s1) /\
    named "a" (categories s1) /\ named "b" (categories s1) /\
    named "b" (categories (bulkUpload.upload_all (H := example) [widget] empty_state).2).
Proof.
  destruct (upload_registers_categories_first (H := example) [widget] empty_state)
    as (s1 & Hregister & _ & Hnamed & _ & _ & Hafter).
  - constructor.
  - constructor; [|constructor].
    exists (csv "widget.csv"), [widget]. split; [vm_compute; reflexivity|by left].
  - exists s1. split; [done|].
    assert (forall c, c ∈ ["a"; "b"] -> VStr c ∈ product_categories widget) as Hlabels.
    { intros c Hc. change (product_categories widget) with (VStr <$> ["a"; "b"]).
      by apply list_elem_of_fmap_2. }
    split; [apply (Hnamed widget); [by left|apply Hlabels; by left]|].
    split; [apply (Hnamed widget); [by left|apply Hlabels; right; by left]|].
    apply (Hafter widget); [by left|apply Hlabels; right; by left].
Defined.

(** ** Recategorization: [update_product_category] *)

(** Induction on values, through the lists. *)
Section ValueInduction.
Variable P : value -> Prop.
Hypothesis HBool : forall b, P (VBool b).
Hypothesis HInt : forall z, P (VInt z).
Hypothesis HFloat : forall f, P (VFloat f).
Hypothesis HStr : forall s, P (VStr s).
Hypothesis HList : forall l, Forall P l -> P (VList l).
Hypothesis HObjectId : forall o, P (VObjectId o).

Fixpoint value_induction (v : value) : P v :=
  match v with
  | VBool b => HBool b
  | VInt z => HInt z
  | VFloat f => HFloat f
  | VStr s => HStr s
  | VList l =>
      HList l ((fix go (l : list value) : Forall P l :=
                  match l with
                  | [] => Forall_nil_2 P
                  | x :: l' => Forall_cons_2 P x l' (value_induction x) (go l')
                  end) l)
  | VObjectId o => HObjectId o
  end.
End ValueInduction.

Lemma same_value_list l1 l2 :
  same_value (VList l1) (VList l2) = true <-> Forall2 (fun a b => same_value a b = true) l1 l2.
Proof.
  revert l2. induction l1 as [|a l1 IH]; intros [|b l2]; simpl.
  - split; [constructor|done].
  - split; [done|inversion 1].
  - split; [done|inversion 1].
  - change (same_value a b && same_value (VList l1) (VList l2) = true
            <-> Forall2 (fun a b => same_value a b = true) (a :: l1) (b :: l2)).
    rewrite andb_true_iff, IH. split.
    + intros [Hab Hl]. by constructor.
    + inversion 1; subst. done.
Qed.

Lemma same_value_refl v : same_value v v = true.
Proof.
  induction v as [b|z|f|s|l IH|o] using value_induction.
  - apply Bool.eqb_reflx.
  - apply Z.eqb_refl.
  - destruct f as [s|s| |s m e]; simpl; unfold same_value; simpl.
    + apply Bool.eqb_reflx.
    + apply Bool.eqb_reflx.
    + done.
    + by rewrite Bool.eqb_reflx, Pos.eqb_refl, Z.eqb_refl.
  - apply String.eqb_refl.
  - apply same_value_list. induction IH; by constructor.
  - apply N.eqb_refl.
Qed.

Lemma same_value_eq v w : same_value v w = true -> v = w.
Proof.
  revert w. induction v as [b|z|f|s|l IH|o] using value_induction; intros w Hw.
  - destruct w; try discriminate. apply Bool.eqb_prop in Hw. by subst.
  - destruct w; try discriminate. by apply Z.eqb_eq in Hw as ->.
  - destruct w as [|?|g| | |]; try (by destruct f).
    destruct f as [s|s| |s m e], g as [t|t| |t n e']; try discriminate.
    + apply Bool.eqb_prop in Hw. by subst.
    + apply Bool.eqb_prop in Hw. by subst.
    + done.
    + unfold same_value in Hw; simpl in Hw.
      apply andb_true_iff in Hw as [[Hs Hm]%andb_true_iff He].
      apply Bool.eqb_prop in Hs. apply Pos.eqb_eq in Hm. apply Z.eqb_eq in He.
      by subst.
  - destruct w; try discriminate. by apply String.eqb_eq in Hw as ->.
  - destruct w as [| | | |l'|]; try discriminate.
    apply same_value_list in Hw. f_equal.
    revert l' Hw. induction IH as [|a l Ha _ IHl]; intros l' Hw.
    + by inversion Hw.
    + inversion Hw as [|? b ? l'' Hab Hl]; subst. f_equal; auto.
  - destruct w; try discriminate. by apply N.eqb_eq in Hw as ->.
Qed.

Lemma head_filter_list_find {A} (f : A -> bool) l :
  head (List.filter f l) = snd <$> list_find (fun a => f a) l.
Proof.
  induction l as [|a l IH]; [done|]. cbn [List.filter list_find].
  destruct (f a) eqn:Ha; case_decide as Hd; simpl in Hd.
  - done.
  - by destruct Hd.
  - done.
  - rewrite IH. by destruct (list_find _ l) as [[i x]|].
Qed.

(** The filter of [update_product_category]. *)
Definition by_id (oid : N) : filter := Field "_id" (Eq_ (VObjectId oid)).

Section CategorizationFacts.
Context `{Externals}.
Variable validator : option json_schema.

(** Fetching a product: [collection.find_one({"_id": oid})]. *)
Definition fetch (oid : N) (s : state) : option doc :=
  head (List.filter (matches (by_id oid)) (products s)).

(** The validator, when there is one, accepts the document. *)
Definition passes (d : doc) : bool :=
  from_option (fun schema => validate schema d) true validator.

Lemma update_product_category_unfold product_id oid new_category s :
  ObjectId product_id = Return oid ->
  encodable new_category = true ->
  productCategorization.update_product_category validator product_id new_category s
  = match list_find (fun d => matches (by_id oid) d) (products s) with
    | None => (Return false, s)
    | Some (i, d) =>
        if from_option (same_value new_category) false (d !! "category")
        then (Return false, s)
        else if passes (<["category" := new_category]> d)
             then (Return true,
                   with_products
                     (<[i := <["category" := new_category]> d]> (products s)) s)
             else (Raise WriteError, s)
    end.
Proof.
  intros Hid Hencodable. unfold productCategorization.update_product_category.
  run. rewrite Hid. unfold update_one. simpl well_formed. cbv iota.
  rewrite Hencodable. simpl negb. cbv iota. fold (by_id oid).
  destruct (list_find _ (products s)) as [[i d]|]; [|by destruct s].
  destruct (from_option (same_value new_category) false (d !! "category"));
    [by destruct s|].
  unfold passes.
  destruct (from_option _ true validator); by destruct s.
Qed.

Lemma by_id_insert_category oid new_category (d : doc) :
  matches (by_id oid) (<["category" := new_category]> d) = matches (by_id oid) d.
Proof. simpl. by rewrite lookup_insert_ne. Qed.

Lemma unchanged_category new_category (d : doc) :
  from_option (same_value new_category) false (d !! "category") = true <->
  d !! "category" = Some new_category.
Proof.
  destruct (d !! "category") as [old|]; simpl.
  - split.
    + by intros ->%same_value_eq.
    + intros [= ->]. apply same_value_refl.
  - done.
Qed.

(** C8, as amended. For an id that [ObjectId] accepts (an [ObjectId], or
    a text of 24 hexadecimal digits) and a new value that the driver can
    encode, in every state of the store and under whatever validator the
    collection carries: [update_product_category] returns
    [False], without an exception and without a change, when no product
    has the id and when the product's category is already the new value;
    when it returns [True] the store has changed, only in its products,
    and fetching the product shows the new category; it returns [True]
    exactly when the store was modified; and it does return [True] for a
    product whose category differs, when the validator accepts the
    changed document. *)
Theorem update_product_category_reports_modification
    product_id oid new_category s :
  ObjectId product_id = Return oid ->
  encodable new_category = true ->
  (fetch oid s = None ->
   productCategorization.update_product_category validator product_id new_category s
   = (Return false, s)) /\
  (forall d, fetch oid s = Some d -> d !! "category" = Some new_category ->
   productCategorization.update_product_category validator product_id new_category s
   = (Return false, s)) /\
  (forall s',
   productCategorization.update_product_category validator product_id new_category s
   = (Return true, s') ->
   s' <> s /\ categories s' = categories s /\
   exists d', fetch oid s' = Some d' /\ d' !! "category" = Some new_category) /\
  (forall r s',
   productCategorization.update_product_category validator product_id new_category s
   = (r, s') ->
   (r = Return true <-> s' <> s)) /\
  (forall d, fetch oid s = Some d -> d !! "category" <> Some new_category ->
   passes (<["category" := new_category]> d) = true ->
   exists s',
     productCategorization.update_product_category validator product_id new_category s
     = (Return true, s')).
Proof.
  intros Hid Hencodable.
  rewrite (update_product_category_unfold _ _ _ _ Hid Hencodable).
  unfold fetch. rewrite head_filter_list_find.
  destruct (list_find _ (products s)) as [[i d]|] eqn:Hfind; simpl.
  2: { split; [done|]. split; [done|]. split; [by intros s' [= <-]|].
       split; [|done]. intros r s' [= <- <-]. split; [done|].
       intros Hne. by destruct Hne. }
  apply list_find_Some in Hfind as (Hi & Hd & Hfirst).
  destruct (from_option (same_value new_category) false (d !! "category"))
    eqn:Hsame.
  { apply unchanged_category in Hsame.
    split; [done|]. split; [done|]. split; [by intros s' [= <-]|].
    split.
    - intros r s' [= <- <-]. split; [done|]. intros Hne. by destruct Hne.
    - intros d' [= <-] Hdiffers. done. }
  assert (d !! "category" <> Some new_category) as Hdiffers.
  { intros Hsame'%unchanged_category. congruence. }
  assert (with_products (<[i := <["category" := new_category]> d]> (products s)) s
          <> s) as Hmodified.
  { intros Heq. apply (f_equal products) in Heq. simpl in Heq.
    apply (f_equal (fun l => l !! i)) in Heq.
    rewrite list_lookup_insert_eq in Heq by (by eapply lookup_lt_Some).
    rewrite Hi in Heq. injection Heq as Heq. apply Hdiffers. rewrite <- Heq.
    by rewrite lookup_insert_eq. }
  split; [done|]. split; [by intros d' [= <-] Hsame'|].
  destruct (passes (<["category" := new_category]> d)) eqn:Hpasses.
  - split; [|split; [|eauto]].
    + intros s' [= <-]. split; [done|]. split; [done|].
      exists (<["category" := new_category]> d). split; [|by rewrite lookup_insert_eq].
      unfold with_products. cbn [products]. rewrite head_filter_list_find.
      assert (list_find (fun d => matches (by_id oid) d)
                (<[i := <["category" := new_category]> d]> (products s))
              = Some (i, <["category" := new_category]> d)) as Hfound;
        [|exact (f_equal (fmap snd) Hfound)].
      apply list_find_insert_Some. right. left. split; [done|]. split; [done|].
      split; [by eapply lookup_lt_Some|]. split; [|done].
      by rewrite by_id_insert_category.
    + intros r s' [= <- <-]. split; [by intros _|done].
  - split; [done|]. split.
    + intros r s' [= <- <-]. split; [done|]. intros Hne. by destruct Hne.
    + intros d' [= <-] _ Hpasses'. congruence.
Qed.
End CategorizationFacts.

Definition recategorized_widget : doc := <["category" := VStr "NewCat"]> stored_widget.

(** C8 fails as stated: for an id that no product has and that is no
    well-formed [ObjectId], the call raises instead of returning [False]. *)
Lemma update_product_category_rejects_malformed_id :
  fetch (H := example) 66 widget_store = None /\
  productCategorization.update_product_category (H := example)
    None (VStr "42") (VStr "NewCat") widget_store
  = (Raise InvalidId, widget_store).
Proof. vm_compute. auto. Qed.

Lemma update_product_category_reports_modification_witness :
  productCategorization.update_product_category (H := example)
    (Some bulkUpload.product_schema) (VObjectId 0) (VStr "NewCat") widget_store
  = (Return true, with_products [recategorized_widget] widget_store) /\
  productCategorization.update_product_category (H := example)
    (Some bulkUpload.product_schema) (VObjectId 7) (VStr "NewCat") widget_store
  = (Return false, widget_store).
Proof.
  split.
  - destruct (update_product_category_reports_modification (H := example)
                (Some bulkUpload.product_schema) (VObjectId 0) 0%N (VStr "NewCat")
                widget_store eq_refl eq_refl) as (_ & _ & _ & _ & Hsets).
    destruct (Hsets stored_widget) as [s' Hs'].
    + vm_compute. reflexivity.
    + vm_compute. discriminate.
    + vm_compute. reflexivity.
    + vm_compute. reflexivity.
  - apply (update_product_category_reports_modification (H := example)
             (Some bulkUpload.product_schema) (VObjectId 7) 7%N (VStr "NewCat")
             widget_store eq_refl eq_refl).
    vm_compute. reflexivity.
Defined.

(** ** The category check of the categorization page: [add_new_category] *)

Definition is_text (v : value) : Prop := exists s, v = VStr s.

Lemma insert_sorted_Permutation x l r :
  insert_sorted x l = Return r -> r ≡ₚ x :: l.
Proof.
  revert r. induction l as [|y l IH]; intros r; simpl.
  - by intros [= <-].
  - destruct (py_lt y x) as [[]|]; simpl; try discriminate.
    + destruct (insert_sorted x l) as [r'|]; simpl; [|discriminate].
      intros [= <-]. rewrite (IH r' eq_refl). apply Permutation_swap.
    + by intros [= <-].
Qed.

Lemma py_sorted_Permutation l r : py_sorted l = Return r -> r ≡ₚ l.
Proof.
  revert r. induction l as [|x l IH]; intros r; simpl.
  - by intros [= <-].
  - destruct (py_sorted l) as [s|]; simpl; [|discriminate].
    intros Hr%insert_sorted_Permutation. by rewrite Hr, (IH s eq_refl).
Qed.

Lemma py_in_Permutation x l l' : l ≡ₚ l' -> py_in x l = py_in x l'.
Proof.
  unfold py_in. induction 1 as [|y l l' _ IH|y z l|l l' l'' _ IH1 _ IH2]; simpl.
  - done.
  - by rewrite IH.
  - by rewrite !orb_assoc, (orb_comm (py_eqb x y)).
  - by rewrite IH1.
Qed.

Lemma insert_sorted_text x l :
  is_text x -> Forall is_text l -> returns (insert_sorted x l).
Proof.
  intros [s ->] Hl. induction Hl as [|y l [t ->] _ [r IH]]; simpl.
  - by eexists.
  - destruct (String.ltb t s); simpl.
    + rewrite IH. simpl. by eexists.
    + by eexists.
Qed.

Lemma py_sorted_text l : Forall is_text l -> returns (py_sorted l).
Proof.
  induction 1 as [|x l Hx Hl [s IH]]; simpl.
  - by eexists.
  - rewrite IH. simpl. apply insert_sorted_text; [done|].
    apply py_sorted_Permutation in IH. by rewrite IH.
Qed.

Lemma py_in_text name l : py_in (VStr name) l = true <-> VStr name ∈ l.
Proof.
  unfold py_in. rewrite existsb_exists. split.
  - intros (v & Hv & Heq). apply list_elem_of_In in Hv.
    destruct v; try discriminate.
    unfold py_eqb in Heq; simpl in Heq. unfold py_scalar_eqb in Heq; simpl in Heq.
    by apply String.eqb_eq in Heq as ->.
  - intros Hin. exists (VStr name). split; [by apply list_elem_of_In|].
    unfold py_eqb; simpl. unfold py_scalar_eqb; simpl. apply String.eqb_refl.
Qed.

(** C10, as amended. For every argument and every state,
    [add_new_category] leaves the state as it was, products and
    categories alike. When the distinct values of the field [category]
    of the products can be sorted, as they can when all are texts, it
    returns [True] when the argument is not among them and [False]
    otherwise; when sorting them raises, it raises the same exception.
    For a text, being among the values is being one of them. *)
Theorem add_new_category_writes_nothing new_category s :
  (productCategorization.add_new_category new_category s).2 = s /\
  (forall sorted,
     py_sorted (distinct "category" (products s)) = Return sorted ->
     (productCategorization.add_new_category new_category s).1
     = Return (negb (py_in new_category (distinct "category" (products s))))) /\
  (forall e,
     py_sorted (distinct "category" (products s)) = Raise e ->
     (productCategorization.add_new_category new_category s).1 = Raise e) /\
  (Forall is_text (distinct "category" (products s)) ->
   returns (py_sorted (distinct "category" (products s)))) /\
  (forall name : string,
     py_in (VStr name) (distinct "category" (products s)) = true <->
     VStr name ∈ distinct "category" (products s)).
Proof.
  unfold productCategorization.add_new_category,
    productCategorization.get_all_categories. run.
  split; [|split; [|split; [|split]]].
  - destruct (py_sorted _) as [sorted|e]; simpl; [|by destruct s].
    destruct (negb _); by destruct s.
  - intros sorted Hsorted. rewrite Hsorted. simpl.
    rewrite (py_in_Permutation _ _ _ (py_sorted_Permutation _ _ Hsorted)).
    by destruct (negb _).
  - intros e Hraise. by rewrite Hraise.
  - apply py_sorted_text.
  - intros name. apply py_in_text.
Qed.

(** Two products with a category: a text for the one, the NaN of an
    empty cell for the other. *)
Definition mixed_store : state :=
  {| products := [ <["category" := VStr "toys"]> stored_widget;
                   <["category" := VFloat nan]> (<["_id" := VObjectId 1]> widget) ];
     categories := []; screen := [] |}.

(** C10 fails as stated: with categories of two kinds in the store the
    call raises instead of returning [True] or [False]. *)
Lemma add_new_category_raises_on_mixed_categories :
  distinct "category" (products mixed_store) = [VStr "toys"; VFloat nan] /\
  productCategorization.add_new_category (VStr "books") mixed_store
  = (Raise TypeError, mixed_store).
Proof. vm_compute. auto. Qed.

Example add_new_category_on_texts :
  productCategorization.add_new_category (VStr "books")
    (with_products [recategorized_widget] widget_store)
  = (Return true, with_products [recategorized_widget] widget_store) /\
  productCategorization.add_new_category (VStr "NewCat")
    (with_products [recategorized_widget] widget_store)
  = (Return false, with_products [recategorized_widget] widget_store).
Proof. vm_compute. auto. Qed.

(** * Further properties of the two scripts *)

(** ** The labels that [process_csv] makes *)

Lemma lstrip_head s c r : lstrip s = String c r -> is_space c = false.
Proof.
  induction s as [|d s IH]; simpl; [done|].
  destruct (is_space d) eqn:Hd; [done|]. by intros [= <- <-].
Qed.

Lemma lstrip_trimmed s :
  match s with String c _ => is_space c = false | EmptyString => True end ->
  lstrip s = s.
Proof. destruct s as [|c r]; simpl; [done|]. by intros ->. Qed.

Lemma rstrip_head c r :
  is_space c = false -> exists r', rstrip (String c r) = String c r'.
Proof.
  intros Hc. simpl. destruct (rstrip r); [|by eexists].
  rewrite Hc. by eexists.
Qed.

Lemma rstrip_rstrip s : rstrip (rstrip s) = rstrip s.
Proof.
  induction s as [|c s IH]; simpl; [done|].
  destruct (rstrip s) as [|d u] eqn:Hu.
  - destruct (is_space c) eqn:Hc; simpl; [done|]. by rewrite Hc.
  - change (rstrip (String c (String d u)) = String c (String d u)).
    cbn [rstrip]. cbn [rstrip] in IH. by rewrite IH.
Qed.

(** Stripping twice strips no more. *)
Lemma strip_strip s : strip (strip s) = strip s.
Proof.
  unfold strip. rewrite (lstrip_trimmed (rstrip (lstrip s))).
  - apply rstrip_rstrip.
  - destruct (lstrip s) as [|c r] eqn:Hs; [done|].
    pose proof (lstrip_head _ _ _ Hs) as Hc.
    destruct (rstrip_head c r Hc) as [r' ->]. done.
Qed.

(** The commas of a text. *)
Fixpoint commas (s : string) : nat :=
  match s with
  | EmptyString => 0
  | String c s' => if Ascii.eqb c comma then S (commas s') else commas s'
  end.

Lemma split_length s : length (split comma s) = S (commas s).
Proof.
  induction s as [|c s IH]; simpl; [done|].
  destruct (Ascii.eqb c comma); simpl; [by rewrite IH|].
  destruct (split comma s) as [|piece pieces]; simpl in *; [done|lia].
Qed.

Section LabelFacts.
Context `{Externals}.

(** X1. Every record that [process_csv] returns carries, for its row of
    the table, one label more than the categories cell has commas, none
    of which has whitespace left to strip; its fields are the columns of
    the file, and every field other than price, quantity and categories
    holds the cell as it was parsed. *)
Theorem process_csv_record_shape file df products i product :
  read_csv file = Return df ->
  bulkUpload.process_csv file = Return (Some products) ->
  products !! i = Some product ->
  exists cells c,
    rows df !! i = Some cells /\
    row_to_dict (columns df) cells !! "categories" = Some (VStr c) /\
    length (product_categories product) = S (commas c) /\
    Forall (fun label => exists t, label = VStr t /\ strip t = t)
      (product_categories product) /\
    (forall k, is_Some (product !! k) <-> k ∈ columns df) /\
    (forall k, k <> "price" -> k <> "quantity" -> k <> "categories" ->
       product !! k = row_to_dict (columns df) cells !! k).
Proof.
  intros Hread Hprocess Hproduct.
  pose proof Hread as Hshape. apply read_csv_rectangular in Hshape.
  unfold bulkUpload.process_csv in Hprocess. rewrite Hread in Hprocess.
  simpl in Hprocess.
  destruct (bulkUpload.validate_csv df) eqn:Hvalid; [|discriminate].
  destruct (rmapM bulkUpload.normalize (to_dict_records df)) as [ps|] eqn:Hps;
    simpl in Hprocess; [|discriminate].
  injection Hprocess as ->. apply rmapM_Return in Hps.
  destruct (Forall2_lookup_r _ _ _ _ _ Hps Hproduct) as (row & Hrow & Hnormalize).
  apply normalize_normalized in Hnormalize
    as (p & q & c & price & quantity & Hp & _ & Hq & _ & Hc & ->).
  unfold to_dict_records in Hrow. rewrite list_lookup_fmap in Hrow.
  destruct (rows df !! i) as [cells|] eqn:Hcells; [|discriminate].
  injection Hrow as <-. exists cells, c.
  assert (length cells = length (columns df)) as Hlength.
  { unfold rectangular in Hshape. rewrite Forall_forall in Hshape.
    apply Hshape. by eapply list_elem_of_lookup_2. }
  split; [done|]. split; [done|].
  unfold product_categories. rewrite lookup_insert_eq.
  split; [by rewrite !length_fmap, split_length|].
  split; [|split].
  - apply Forall_forall. intros label Hlabel.
    apply list_elem_of_fmap in Hlabel as (piece & -> & _).
    exists (strip piece). split; [done|apply strip_strip].
  - intros k. split.
    + intros Hk. destruct (decide (k ∈ columns df)) as [|Hout]; [done|].
      apply (row_to_dict_None _ cells) in Hout.
      destruct (decide (k = "categories")) as [->|?]; [congruence|].
      destruct (decide (k = "quantity")) as [->|?]; [congruence|].
      destruct (decide (k = "price")) as [->|?]; [congruence|].
      rewrite !lookup_insert_ne in Hk by done. rewrite Hout in Hk.
      by destruct Hk.
    + intros Hk.
      destruct (decide (k = "categories")) as [->|?];
        [rewrite lookup_insert_eq; eauto|rewrite lookup_insert_ne by done].
      destruct (decide (k = "quantity")) as [->|?];
        [rewrite lookup_insert_eq; eauto|rewrite lookup_insert_ne by done].
      destruct (decide (k = "price")) as [->|?];
        [rewrite lookup_insert_eq; eauto|rewrite lookup_insert_ne by done].
      by apply row_to_dict_is_Some.
  - intros k Hprice Hquantity Hcategories. by rewrite !lookup_insert_ne.
Qed.
End LabelFacts.

Lemma process_csv_record_shape_witness :
  exists cells c,
    rows extra_column_table !! 0%nat = Some cells /\
    row_to_dict (columns extra_column_table) cells !! "categories" = Some (VStr c) /\
    length (product_categories toy_widget) = S (commas c) /\
    Forall (fun label => exists t, label = VStr t /\ strip t = t)
      (product_categories toy_widget) /\
    (forall k, is_Some (toy_widget !! k) <-> k ∈ columns extra_column_table) /\
    (forall k, k <> "price" -> k <> "quantity" -> k <> "categories" ->
       toy_widget !! k = row_to_dict (columns extra_column_table) cells !! k).
Proof.
  apply (process_csv_record_shape (H := example) (csv "extra_column.csv")
           extra_column_table [toy_widget] 0 toy_widget).
  - reflexivity.
  - vm_compute. reflexivity.
  - reflexivity.
Defined.

(** ** Edge cases of the upload page *)

Lemma rmapM_raises {A B} (f : A -> result B) good bad rest e :
  Forall (fun x => returns (f x)) good -> f bad = Raise e ->
  rmapM f (good ++ bad :: rest) = Raise e.
Proof.
  intros Hgood Hbad. induction Hgood as [|x good [y Hx] _ IH]; simpl.
  - by rewrite Hbad.
  - rewrite Hx. simpl. by rewrite IH.
Qed.

Section UploadPageFacts.
Context `{Externals}.

(** X2. A file with the five columns and no data row is not rejected by
    [process_csv], which returns the empty list for it; the page then
    treats the file like one with a wrong format: it names it as invalid
    and skipped, warns that there is no valid product, and stores
    nothing, whether the button is pressed or not. *)
Theorem header_only_file_is_reported_invalid file df upload_clicked s :
  read_csv file = Return df ->
  bulkUpload.validate_csv df = true ->
  rows df = [] ->
  bulkUpload.process_csv file = Return (Some []) /\
  bulkUpload.upload_page [file] upload_clicked s
  = (Return (),
     show [FileInvalid (name file); FilesSkipped [name file]; NoValidProducts] s).
Proof.
  intros Hread Hvalid Hrows.
  assert (bulkUpload.process_csv file = Return (Some [])) as Hprocess.
  { unfold bulkUpload.process_csv. rewrite Hread. simpl. rewrite Hvalid.
    unfold to_dict_records. by rewrite Hrows. }
  split; [done|]. unfold bulkUpload.upload_page. cbn [bulkUpload.process_files].
  run. rewrite Hprocess. unfold show. simpl. by rewrite <- !app_assoc.
Qed.

(** X3. When the rows before it are normalized without an exception, a
    row whose price is a text that [float] rejects makes [process_csv]
    raise [ValueError]: no record of the file is returned, not even
    those of the rows before; and a page run that starts with this file
    ends with the exception, the state as it was. *)
Theorem first_bad_price_raises file df good bad rest text :
  read_csv file = Return df ->
  bulkUpload.validate_csv df = true ->
  to_dict_records df = good ++ bad :: rest ->
  Forall (fun row => returns (bulkUpload.normalize row)) good ->
  bad !! "price" = Some (VStr text) ->
  float_of_str text = None ->
  bulkUpload.process_csv file = Raise ValueError /\
  forall files upload_clicked s,
    bulkUpload.upload_page (file :: files) upload_clicked s = (Raise ValueError, s).
Proof.
  intros Hread Hvalid Hrows Hgood Hprice Htext.
  assert (bulkUpload.process_csv file = Raise ValueError) as Hprocess.
  { unfold bulkUpload.process_csv. rewrite Hread. simpl. rewrite Hvalid, Hrows.
    erewrite rmapM_raises; [done|done|].
    unfold bulkUpload.normalize, getitem. rewrite Hprice. simpl. by rewrite Htext. }
  split; [done|]. intros files upload_clicked s.
  unfold bulkUpload.upload_page. cbn [bulkUpload.process_files]. run.
  by rewrite Hprocess.
Qed.

(** The loop over the files reads and reports: it leaves the database
    as it was, whether it ends or raises. *)
Lemma process_files_database files all_products invalid_files s :
  products (bulkUpload.process_files files all_products invalid_files s).2
    = products s /\
  categories (bulkUpload.process_files files all_products invalid_files s).2
    = categories s.
Proof.
  revert all_products invalid_files s.
  induction files as [|file files IH]; intros all_products invalid_files s; [done|].
  cbn [bulkUpload.process_files]. run.
  destruct (bulkUpload.process_csv file) as [[[|record records]|]|e]; simpl;
    try done.
  - destruct (IH all_products (invalid_files ++ [name file])
                {| products := products s; categories := categories s;
                   screen := screen s ++ [FileInvalid (name file)] |}) as [Hp Hc].
    done.
  - destruct (IH (all_products ++ record :: records) invalid_files
                {| products := products s; categories := categories s;
                   screen := screen s ++ [FileProcessed (name file)] |}) as [Hp Hc].
    done.
  - destruct (IH all_products (invalid_files ++ [name file])
                {| products := products s; categories := categories s;
                   screen := screen s ++ [FileInvalid (name file)] |}) as [Hp Hc].
    done.
Qed.

(** X4. Without the button "Upload All Products" the page stores
    nothing: whatever the files, and whether the run ends or raises, the
    products and the categories are as before. *)
Theorem upload_page_stores_nothing_before_the_click uploaded_files s :
  products (bulkUpload.upload_page uploaded_files false s).2 = products s /\
  categories (bulkUpload.upload_page uploaded_files false s).2 = categories s.
Proof.
  unfold bulkUpload.upload_page. destruct uploaded_files as [|file files]; [done|].
  pose proof (process_files_database (file :: files) [] [] s) as [Hp Hc].
  unfold mbind, St_bind.
  destruct (bulkUpload.process_files (file :: files) [] [] s)
    as [[[all_products invalid_files]|e] s1]; [|done].
  destruct invalid_files, all_products; run; done.
Qed.
End UploadPageFacts.

Lemma header_only_table_rectangular :
  rectangular {| columns := bulkUpload.required_columns; rows := [] |}.
Proof. constructor. Qed.

Definition header_only : Externals := {|
  read_csv := fun _ => Return {| columns := bulkUpload.required_columns; rows := [] |};
  read_csv_rectangular := fun _ _ Heq =>
    eq_ind _ rectangular header_only_table_rectangular _
      (f_equal (fun r => match r with Return df => df | Raise _ =>
         {| columns := bulkUpload.required_columns; rows := [] |} end) Heq);
  float_of_str := fun _ => None;
  int_of_str := fun _ => None;
  pcre_caseless := fun _ => None
|}.

Lemma header_only_file_is_reported_invalid_witness :
  bulkUpload.process_csv (H := header_only) (csv "empty.csv") = Return (Some []) /\
  bulkUpload.upload_page (H := header_only) [csv "empty.csv"] true empty_state
  = (Return (),
     show [FileInvalid "empty.csv"; FilesSkipped ["empty.csv"]; NoValidProducts]
       empty_state).
Proof.
  apply (header_only_file_is_reported_invalid (H := header_only) (csv "empty.csv")
           {| columns := bulkUpload.required_columns; rows := [] |} true empty_state);
    reflexivity.
Defined.

Lemma first_bad_price_raises_witness :
  bulkUpload.process_csv (H := example) (csv "bad_price.csv") = Raise ValueError /\
  forall files upload_clicked s,
    bulkUpload.upload_page (H := example) (csv "bad_price.csv" :: files)
      upload_clicked s = (Raise ValueError, s).
Proof.
  apply (first_bad_price_raises (H := example) (csv "bad_price.csv")
           bad_price_table [] (row_to_dict (columns bad_price_table)
             [VStr "Gizmo"; VStr "desc"; VStr "abc"; VInt 2; VStr "c"]) [] "abc").
  - reflexivity.
  - reflexivity.
  - reflexivity.
  - constructor.
  - vm_compute. reflexivity.
  - reflexivity.
Defined.

(** ** The handler of the upload button *)

Section UploadHandlerFacts.
Context `{Externals}.






End UploadHandlerFacts.

(** ** Identifiers of the stored documents *)

(** The ["_id"] of the documents that have one. *)
Definition ids (ds : list doc) : list value := omap (fun d : doc => d !! "_id") ds.

Definition unique_ids (ds : list doc) : Prop := NoDup (ids ds).

Lemma number_compare_refl x : x <> NNaN -> number_compare x x = Some Eq.
Proof.
  destruct x as [|[]|m e]; simpl; try done. intros _.
  by rewrite Z.compare_refl.
Qed.

Lemma bson_eqb_refl_scalar i : (forall l, i <> VList l) -> bson_eqb i i = true.
Proof.
  intros Hscalar. destruct i as [b|z|f|s|l|o]; unfold bson_eqb; simpl.
  - apply Bool.eqb_reflx.
  - unfold bson_scalar_eqb; simpl. by rewrite Z.compare_refl.
  - unfold bson_scalar_eqb; simpl. destruct f as [s|[]| |s m e]; simpl; try done.
    by rewrite Z.compare_refl.
  - apply String.eqb_refl.
  - by destruct (Hscalar l).
  - apply N.eqb_refl.
Qed.

Lemma ids_app ds ds' : ids (ds ++ ds') = ids ds ++ ids ds'.
Proof. apply omap_app. Qed.

Lemma store_insert_unique validator stored d stored' :
  unique_ids stored -> store_insert validator stored d = Return stored' ->
  unique_ids stored'.
Proof.
  unfold store_insert, unique_ids. intros Hunique.
  assert (forall i, (forall l, i <> VList l) -> d !! "_id" = Some i ->
                    id_taken i stored = false -> NoDup (ids (stored ++ [d])))
    as Hfresh.
  { intros i Hscalar Hid Htaken. rewrite ids_app. unfold ids at 2. simpl.
    rewrite Hid. apply NoDup_app. split; [done|]. split; [|apply NoDup_singleton].
    intros j Hj ->%list_elem_of_singleton.
    unfold ids in Hj. apply list_elem_of_omap in Hj as (d' & Hd' & Hid').
    unfold id_taken in Htaken. apply not_true_iff_false in Htaken.
    apply Htaken. apply existsb_exists. exists d'.
    split; [by apply list_elem_of_In|]. rewrite Hid'. simpl.
    by apply bson_eqb_refl_scalar. }
  destruct (negb (validate validator d)); [done|].
  destruct (d !! "_id") as [i|] eqn:Hid.
  - destruct i as [b|z|f|t|l|o].
    5: { intros Hraise. discriminate Hraise. }
    all: destruct (id_taken _ stored) eqn:Htaken;
      [intros Hraise; discriminate Hraise|];
      intros [= <-]; eapply Hfresh; [|reflexivity|exact Htaken];
      intros l' Hl'; discriminate Hl'.
  - intros [= <-]. rewrite ids_app. unfold ids at 2. simpl. rewrite Hid.
    by rewrite app_nil_r.
Qed.

Lemma insert_ordered_unique validator stored batch :
  unique_ids stored -> unique_ids (insert_ordered validator stored batch).1.
Proof.
  revert stored. induction batch as [|d batch IH]; intros stored Hunique; [done|].
  simpl. destruct (store_insert validator stored d) as [stored'|e] eqn:Hinsert;
    [|done].
  apply IH. by eapply store_insert_unique.
Qed.

Lemma insert_ordered_extends validator stored batch :
  exists k, (insert_ordered validator stored batch).1 = stored ++ take k batch.
Proof.
  revert stored. induction batch as [|d batch IH]; intros stored.
  - exists 0%nat. simpl. by rewrite app_nil_r.
  - simpl. destruct (store_insert validator stored d) as [stored'|e] eqn:Hinsert.
    + assert (stored' = stored ++ [d]) as ->.
      { unfold store_insert in Hinsert.
        destruct (negb (validate validator d)); [done|].
        destruct (d !! "_id") as [[]|]; try done;
          try (destruct (id_taken _ stored); [done|]); by injection Hinsert. }
      destruct (IH (stored ++ [d])) as [k Hk]. exists (S k).
      rewrite Hk. simpl. by rewrite <- app_assoc.
    + exists 0%nat. simpl. by rewrite app_nil_r.
Qed.

Lemma assign_ids_have_ids n batch :
  Forall (fun d : doc => is_Some (d !! "_id")) (assign_ids n batch).
Proof.
  revert n. induction batch as [|d batch IH]; intros n; simpl; [constructor|].
  destruct (d !! "_id") as [i|] eqn:Hid.
  - constructor; [by rewrite Hid|apply IH].
  - constructor; [by rewrite lookup_insert_eq|apply IH].
Qed.

(** X6. [save_products] keeps the identifiers of the products in order:
    when the stored products have an ["_id"] each and no two share one,
    the same holds after the call, whatever the batch holds and whether
    the insert succeeds or stops partway; the products stored before are
    still there, unchanged and in place, and the categories are
    untouched. *)
Theorem save_products_keeps_ids_unique batch s :
  unique_ids (products s) ->
  Forall (fun d : doc => is_Some (d !! "_id")) (products s) ->
  unique_ids (products (bulkUpload.save_products batch s).2) /\
  Forall (fun d : doc => is_Some (d !! "_id"))
    (products (bulkUpload.save_products batch s).2) /\
  (exists added,
     products (bulkUpload.save_products batch s).2 = products s ++ added) /\
  categories (bulkUpload.save_products batch s).2 = categories s.
Proof.
  intros Hunique Hids.
  unfold bulkUpload.save_products, mbind, St_bind, on_products, insert_many.
  destruct batch as [|d batch].
  { simpl. repeat split; try done. exists []. by rewrite app_nil_r. }
  pose proof (assign_ids_have_ids (fresh_oid ((d :: batch) ++ products s))
                (d :: batch)) as Hassigned.
  set (batch' := assign_ids _ (d :: batch)) in *.
  destruct (negb (forallb doc_encodable batch')).
  { simpl. repeat split; try done. exists []. by rewrite app_nil_r. }
  pose proof (insert_ordered_unique bulkUpload.product_schema (products s) batch'
                Hunique) as Hunique'.
  destruct (insert_ordered_extends bulkUpload.product_schema (products s) batch')
    as [k Hk].
  destruct (insert_ordered bulkUpload.product_schema (products s) batch')
    as [stored' [e|]]; simpl in *; subst stored'.
  all: repeat split; try done; eauto.
  all: apply Forall_app; split; [done|]; by apply Forall_take.
Qed.

Lemma save_products_keeps_ids_unique_witness :
  unique_ids (products (bulkUpload.save_products
                          [widget; negative_price_widget] widget_store).2) /\
  Forall (fun d : doc => is_Some (d !! "_id"))
    (products (bulkUpload.save_products
                 [widget; negative_price_widget] widget_store).2) /\
  (exists added,
     products (bulkUpload.save_products
                 [widget; negative_price_widget] widget_store).2
     = products widget_store ++ added) /\
  categories (bulkUpload.save_products
                [widget; negative_price_widget] widget_store).2
  = categories widget_store.
Proof.
  apply (save_products_keeps_ids_unique [widget; negative_price_widget] widget_store).
  - apply NoDup_singleton.
  - constructor; [by eexists|constructor].
Defined.
